(** * NatalChart: planetary positions and chart layout

    A shallow embedding of [src/NatalChart.tsx].  JavaScript numbers are
    IEEE-754 binary64 values, modelled by Rocq's primitive floats, so that
    every arithmetic step of the component ([*], [/], [+], [-], [<]) is the
    one the JavaScript engine performs.  What the component gets from outside
    is kept outside: the ephemeris provider [Astronomy.GeoVector], the
    transcendental functions [Math.atan2], [Math.cos], [Math.sin] (which
    ECMAScript leaves implementation-approximated) and the local time zone
    are variables of the sections below. *)

From Stdlib Require Import ZArith Lia List String Bool Floats.
Import ListNotations.

Local Open Scope Z_scope.

(** ** Exceptions *)

(** A JavaScript computation either returns a value or throws. *)
Inductive result (A : Type) : Type :=
| Ok (a : A)
| Throw (msg : string).

Arguments Ok {A} a.
Arguments Throw {A} msg.

Definition bind {A B : Type} (c : result A) (k : A -> result B) : result B :=
  match c with
  | Ok a => k a
  | Throw msg => Throw msg
  end.

Notation "x <- c ;; k" := (bind c (fun x => k))
  (at level 61, c at next level, right associativity).

(** [Array.prototype.map] with a callback that may throw: elements are
    visited left to right and the first exception leaves the loop, no array
    being returned. *)
Fixpoint array_map {A B : Type} (f : A -> result B) (xs : list A)
  : result (list B) :=
  match xs with
  | [] => Ok []
  | x :: rest =>
      y <- f x ;;
      ys <- array_map f rest ;;
      Ok (y :: ys)
  end.

(** [Array.prototype.map] passes the element's index as second argument. *)
Fixpoint mapi_from {A B : Type} (f : A -> nat -> B) (i : nat) (xs : list A)
  : list B :=
  match xs with
  | [] => []
  | x :: rest => f x i :: mapi_from f (S i) rest
  end.

Definition mapi {A B : Type} (f : A -> nat -> B) (xs : list A) : list B :=
  mapi_from f 0 xs.

(** ** The JavaScript runtime: numbers, [Math], array access *)

Module Js.

(** [Math.PI], the double nearest to pi. *)
Definition PI : float := 0x1.921fb54442d18p+1%float.

Definition of_Z (k : Z) : float :=
  SF2Prim (binary_normalize prec emax k 0 false).

Definition of_nat (k : nat) : float := of_Z (Z.of_nat k).

(** [Math.floor] on the decoded double [(-1)^s * m * 2^e]: an integer
    already when [0 <= e]; otherwise the mantissa loses its [-e] low bits,
    and a negative number that lost a set bit moves one further down.
    NaN, the infinities and both zeros are returned as they are. *)
Definition SFfloor (x : spec_float) : spec_float :=
  match x with
  | S754_finite s m e =>
      if 0 <=? e then x
      else
        let q := Z.shiftr (Zpos m) (- e) in
        if s then
          let exact := Z.shiftl q (- e) =? Zpos m in
          binary_normalize prec emax (- (if exact then q else q + 1)) 0 true
        else binary_normalize prec emax q 0 false
  | _ => x
  end.

Definition floor (x : float) : float := SF2Prim (SFfloor (Prim2SF x)).

(** [xs[i]] for an array [xs] and a number [i].  The property key is the
    string of [i]; an array has an own property under that key exactly
    when [i] equals (as a number, so [-0] counts as [0]) an integer index
    below the length.  Every other number, NaN and the infinities
    included, reads [undefined], here [None]. *)
Fixpoint get_from {A : Type} (xs : list A) (k : nat) (i : float)
  : option A :=
  match xs with
  | [] => None
  | x :: rest =>
      if PrimFloat.eqb i (of_nat k) then Some x else get_from rest (S k) i
  end.

Definition get {A : Type} (xs : list A) (i : float) : option A :=
  get_from xs 0 i.

(** [v?.f]: [undefined] when [v] is [undefined], the field otherwise. *)
Definition opt_chain {A B : Type} (v : option A) (f : A -> B) : option B :=
  match v with
  | Some a => Some (f a)
  | None => None
  end.

(** [v.f] without the question mark throws a TypeError on [undefined]. *)
Definition member {A B : Type} (v : option A) (f : A -> B) : result B :=
  match v with
  | Some a => Ok (f a)
  | None => Throw "TypeError: Cannot read properties of undefined"
  end.

(** [v || d] for a string or [undefined] [v]: [undefined] and the empty
    string are falsy. *)
Definition or_else (v : option string) (d : string) : string :=
  match v with
  | Some EmptyString => d
  | Some s => s
  | None => d
  end.

(** [i % 2] for an array index [i]. *)
Definition rem2 (i : nat) : float := of_nat (Nat.modulo i 2).

End Js.

(** ** Time values

    ECMAScript's abstract operations on time values (milliseconds since
    the epoch, UTC), and the methods of [Date] built on them. *)

(** The time zone of the machine, as the two abstract operations that
    depend on it: [LocalTime(t)], from a time value to the local time
    line, and [UTC(t)], from the local time line back to a time value.
    Where a change of the offset skips local times, an engine has [UTC]
    read a skipped local time with the offset in force before the change,
    so that [LocalTime (UTC t)] comes out later than [t]. *)
Record Zone : Type := { LocalTime : Z -> Z; UTC : Z -> Z }.

Module Date.

Definition msPerSecond : Z := 1000.
Definition msPerMinute : Z := 60000.
Definition msPerHour : Z := 3600000.
Definition msPerDay : Z := 86400000.

Definition Day (t : Z) : Z := t / msPerDay.
Definition HourFromTime (t : Z) : Z := (t / msPerHour) mod 24.
Definition MinFromTime (t : Z) : Z := (t / msPerMinute) mod 60.
Definition SecFromTime (t : Z) : Z := (t / msPerSecond) mod 60.
Definition msFromTime (t : Z) : Z := t mod msPerSecond.

Definition MakeTime (hour min sec ms : Z) : Z :=
  hour * msPerHour + min * msPerMinute + sec * msPerSecond + ms.

Definition MakeDate (day time : Z) : Z := day * msPerDay + time.

(** The civil date of a day number (days since 1970-01-01), proleptic
    Gregorian calendar: year, month (0 for January, as JavaScript counts)
    and day of the month. *)
Definition civil (day : Z) : Z * Z * Z :=
  let z := day + 719468 in
  let era := z / 146097 in
  let doe := z mod 146097 in
  let yoe := (doe - doe / 1460 + doe / 36524 - doe / 146096) / 365 in
  let doy := doe - (365 * yoe + yoe / 4 - yoe / 100) in
  let mp := (5 * doy + 2) / 153 in
  let d := doy - (153 * mp + 2) / 5 + 1 in
  let m := if mp <? 10 then mp + 3 else mp - 9 in
  let y := yoe + era * 400 + (if m <=? 2 then 1 else 0) in
  (y, m - 1, d).

Definition YearFromTime (t : Z) : Z := fst (fst (civil (Day t))).
Definition MonthFromTime (t : Z) : Z := snd (fst (civil (Day t))).
Definition DateFromTime (t : Z) : Z := snd (civil (Day t)).

Section InZone.

Variable zone : Zone.

(** [Date.prototype.getFullYear] and its siblings read the fields of the
    local time. *)
Definition getFullYear (t : Z) : Z := YearFromTime (LocalTime zone t).
Definition getMonth (t : Z) : Z := MonthFromTime (LocalTime zone t).
Definition getDate (t : Z) : Z := DateFromTime (LocalTime zone t).
Definition getHours (t : Z) : Z := HourFromTime (LocalTime zone t).
Definition getMinutes (t : Z) : Z := MinFromTime (LocalTime zone t).
Definition getSeconds (t : Z) : Z := SecFromTime (LocalTime zone t).
Definition getMilliseconds (t : Z) : Z := msFromTime (LocalTime zone t).

(** [Date.prototype.setHours(hour)], [setMinutes(min)] and
    [setSeconds(sec)]: the local time is taken apart, put together again
    with the new field, and converted back with [UTC].  ([TimeClip] leaves
    the result alone but for dates some 270000 years away.) *)
Definition setHours (t hour : Z) : Z :=
  let l := LocalTime zone t in
  UTC zone
    (MakeDate (Day l)
       (MakeTime hour (MinFromTime l) (SecFromTime l) (msFromTime l))).

Definition setMinutes (t min : Z) : Z :=
  let l := LocalTime zone t in
  UTC zone
    (MakeDate (Day l)
       (MakeTime (HourFromTime l) min (SecFromTime l) (msFromTime l))).

Definition setSeconds (t sec : Z) : Z :=
  let l := LocalTime zone t in
  UTC zone
    (MakeDate (Day l)
       (MakeTime (HourFromTime l) (MinFromTime l) sec (msFromTime l))).

End InZone.

(** The zone skips no local time of the hour [hour] of the day [day]:
    each of them is the local time of the time value [UTC] gives it. *)
Definition hour_exists (zone : Zone) (day hour : Z) : Prop :=
  forall t, Day t = day -> HourFromTime t = hour ->
    LocalTime zone (UTC zone t) = t.

End Date.

(** ** dayjs values

    A [dayjs] object wraps a [Date], here its time value.  Its getters
    are those of the [Date]; a setter returns a new object whose [Date]
    went through the matching [Date.prototype.set...]; [toDate()] hands
    out a [Date] of the same time value. *)

Record Dayjs : Type := { tv : Z }.

Module dayjs.

Section InZone.

Variable zone : Zone.

Definition year (d : Dayjs) : Z := Date.getFullYear zone (tv d).
Definition month (d : Dayjs) : Z := Date.getMonth zone (tv d).
Definition date (d : Dayjs) : Z := Date.getDate zone (tv d).
Definition hour (d : Dayjs) : Z := Date.getHours zone (tv d).
Definition minute (d : Dayjs) : Z := Date.getMinutes zone (tv d).
Definition second (d : Dayjs) : Z := Date.getSeconds zone (tv d).
Definition millisecond (d : Dayjs) : Z := Date.getMilliseconds zone (tv d).

Definition set_hour (d : Dayjs) (h : Z) : Dayjs :=
  {| tv := Date.setHours zone (tv d) h |}.
Definition set_minute (d : Dayjs) (m : Z) : Dayjs :=
  {| tv := Date.setMinutes zone (tv d) m |}.
Definition set_second (d : Dayjs) (s : Z) : Dayjs :=
  {| tv := Date.setSeconds zone (tv d) s |}.

End InZone.

End dayjs.

(** ** The static tables *)

(** A row of [ZODIAC_SIGNS].  Its [name], [symbol] and [color] carry a
    prefix here, the rows of [PLANETS] having fields of the same names. *)
Record Sign : Type := {
  sign_name : string;
  sign_symbol : string;
  sign_color : string;
  start : float;
  desc : string
}.

Definition ZODIAC_SIGNS : list Sign := [
  {| sign_name := "Aries"; sign_symbol := "♈"; sign_color := "#FF5733";
     start := 0; desc := "The Ram" |};
  {| sign_name := "Taurus"; sign_symbol := "♉"; sign_color := "#4CAF50";
     start := 30; desc := "The Bull" |};
  {| sign_name := "Gemini"; sign_symbol := "♊"; sign_color := "#FFC107";
     start := 60; desc := "The Twins" |};
  {| sign_name := "Cancer"; sign_symbol := "♋"; sign_color := "#B23EFF";
     start := 90; desc := "The Crab" |};
  {| sign_name := "Leo"; sign_symbol := "♌"; sign_color := "#FF9800";
     start := 120; desc := "The Lion" |};
  {| sign_name := "Virgo"; sign_symbol := "♍"; sign_color := "#8BC34A";
     start := 150; desc := "The Virgin" |};
  {| sign_name := "Libra"; sign_symbol := "♎"; sign_color := "#03A9F4";
     start := 180; desc := "The Scales" |};
  {| sign_name := "Scorpio"; sign_symbol := "♏"; sign_color := "#E91E63";
     start := 210; desc := "The Scorpion" |};
  {| sign_name := "Sagittarius"; sign_symbol := "♐"; sign_color := "#9C27B0";
     start := 240; desc := "The Archer" |};
  {| sign_name := "Capricorn"; sign_symbol := "♑"; sign_color := "#795548";
     start := 270; desc := "The Goat" |};
  {| sign_name := "Aquarius"; sign_symbol := "♒"; sign_color := "#00BCD4";
     start := 300; desc := "The Water Bearer" |};
  {| sign_name := "Pisces"; sign_symbol := "♓"; sign_color := "#3F51B5";
     start := 330; desc := "The Fish" |}
].

(** [Astronomy.Body], restricted to the members the table names. *)
Inductive Body : Type :=
| Sun | Moon | Mercury | Venus | Mars | Jupiter | Saturn.

Record Planet : Type := {
  name : string;
  key : Body;
  symbol : string;
  color : string
}.

Definition PLANETS : list Planet := [
  {| name := "Sun"; key := Sun; symbol := "☉"; color := "#FFD700" |};
  {| name := "Moon"; key := Moon; symbol := "☽"; color := "#E0E0E0" |};
  {| name := "Mercury"; key := Mercury; symbol := "☿"; color := "#B0BEC5" |};
  {| name := "Venus"; key := Venus; symbol := "♀"; color := "#F48FB1" |};
  {| name := "Mars"; key := Mars; symbol := "♂"; color := "#EF5350" |};
  {| name := "Jupiter"; key := Jupiter; symbol := "♃"; color := "#FFCA28" |};
  {| name := "Saturn"; key := Saturn; symbol := "♄"; color := "#8D6E63" |}
].

(** The vector [Astronomy.GeoVector] returns (its time stamp is not read). *)
Record Vector : Type := { x : float; y : float; z : float }.

(** An element of [planetaryPositions]: the planet's own fields (the object
    spread), then [degree] and [sign]. *)
Record Position : Type := {
  planet : Planet;
  degree : float;
  sign : string
}.

(** A point returned by [getCoordinates]. *)
Record Point : Type := { px : float; py : float }.

(** ** The component *)

Module NatalChart.

Local Open Scope float_scope.

(** *** Longitude and sign of one vector angle (lines 119-124) *)

(** From the value of [Math.atan2(vector.y, vector.x)] to the degree:
    scale to degrees, then add a turn to a negative angle. *)
Definition longitude_of (angle : float) : float :=
  let longitude := angle * (180 / Js.PI) in
  if longitude <? 0 then longitude + 360 else longitude.

Definition signIndex_of (longitude : float) : float :=
  Js.floor (longitude / 30).

(** [ZODIAC_SIGNS[signIndex]?.name || ""] *)
Definition signName_of (longitude : float) : string :=
  Js.or_else
    (Js.opt_chain (Js.get ZODIAC_SIGNS (signIndex_of longitude)) sign_name)
    "".

(** *** SVG configuration and layout (lines 135-146, 211) *)

Definition size : float := 320.
Definition center : float := size / 2.
Definition radius : float := size / 2 - 10.
Definition innerRadius : float := radius - 40.

Definition planetRadius (index : nat) : float :=
  innerRadius - 20 - Js.rem2 index * 15.

Section Component.

(** [Math.atan2], [Math.cos], [Math.sin]. *)
Variable atan2 : float -> float -> float.
Variables cos sin : float -> float.

(** The time zone of the machine the component runs on. *)
Variable zone : Zone.

(** [Astronomy.GeoVector(body, date, aberration)], which throws when it
    cannot compute a position. *)
Variable GeoVector : Body -> Z -> bool -> result Vector.

(** Lines 111-114: [dob.hour(tob.hour()).minute(tob.minute()).second(0)]. *)
Definition dateObj (dob tob : Dayjs) : Dayjs :=
  dayjs.set_second zone
    (dayjs.set_minute zone
       (dayjs.set_hour zone dob (dayjs.hour zone tob))
       (dayjs.minute zone tob))
    0.

(** Line 115, [.toDate()]: a [Date] of the same time value, which is
    what the provider is given. *)
Definition toDate (d : Dayjs) : Z := tv d.

(** The callback of [PLANETS.map], lines 117-131. *)
Definition position_of (date : Z) (p : Planet) : result Position :=
  vector <- GeoVector (key p) date true ;;
  let longitude := longitude_of (atan2 (y vector) (x vector)) in
  let signName := signName_of longitude in
  Ok {| planet := p; degree := longitude; sign := signName |}.

(** The object the callback returns once the provider delivered [v]. *)
Definition position_at (p : Planet) (v : Vector) : Position :=
  let longitude := longitude_of (atan2 (y v) (x v)) in
  {| planet := p; degree := longitude; sign := signName_of longitude |}.

(** The function given to [useMemo], lines 110-132. *)
Definition planetaryPositions (dob tob : Dayjs) : result (list Position) :=
  array_map (position_of (toDate (dateObj dob tob))) PLANETS.

Definition getCoordinates (degree r : float) : Point :=
  let radians := - degree * (Js.PI / 180) in
  {| px := center + r * cos radians; py := center + r * sin radians |}.

(** Where the marker of each planet goes, lines 210-212. *)
Definition planetCoords (positions : list Position) : list Point :=
  mapi (fun p index => getCoordinates (degree p) (planetRadius index))
    positions.

(** Where the divider and the glyph of each sign go, lines 172-174. *)
Definition signCoords (signs : list Sign) : list (Point * Point) :=
  map (fun s =>
         (getCoordinates (start s) radius,
          getCoordinates (start s + 15) (radius - 20)))
    signs.

(** *** [useMemo]

    React keeps, per component instance, the dependency array and the
    value of the last completed computation.  A render whose
    dependencies are the same objects ([Object.is]) as the kept ones
    reuses the value; any other render calls the function again, and
    keeps the new value unless the function threw.  Objects are named
    by their address in a heap; [dayjs] objects are immutable, so the
    heap does not change between renders. *)

Variable heap : nat -> Dayjs.






End Component.

End NatalChart.

(** ** Classification, as the specification words it *)

(** The longitude [L] is assigned the sign [s], row [k] of the table, and
    lies in the thirty degrees that start at [start s]. *)
Definition in_sector (L : float) (k : nat) (s : Sign) : Prop :=
  (k < 12)%nat /\
  nth_error ZODIAC_SIGNS k = Some s /\
  Js.get ZODIAC_SIGNS (Js.floor (L / 30)) = Some s /\
  NatalChart.signName_of L = sign_name s /\
  (start s <=? L)%float = true /\
  (L <? start s + 30)%float = true.

(** ** Constants of the rounding analysis *)

Module Double.

(** The double 30, decoded: mantissa [15 * 2^49] at exponent -48. *)
Definition m30 : Z := 8444249301319680.
Definition c30 : spec_float := S754_finite false 8444249301319680 (-48).

(** Whether a shift starts from an inexact value. *)
Definition sticky (l : location) : bool :=
  match l with
  | loc_Exact => false
  | loc_Inexact _ => true
  end.

End Double.

(** ** Values of doubles, for bounds on rounded results *)

Module Rounding.

(** The value of the mantissa [m] at the exponent [e], in units of
    [2^-2200]: an integer for every exponent that two doubles can add up
    to. *)
Definition V (m e : Z) : Z := m * 2 ^ (e + 2200).

(** What [binary_round_aux] builds from the rounded mantissa [m] at the
    exponent [e] of the format. *)
Definition pack (m e : Z) : spec_float :=
  if m =? 0 then S754_zero false
  else if m <? 2 ^ 53 then
    if e <=? 971 then S754_finite false (Z.to_pos m) e
    else S754_infinity false
  else
    if e + 1 <=? 971 then S754_finite false (Z.to_pos (2 ^ 52)) (e + 1)
    else S754_infinity false.

(** The mantissa and exponent of a double other than zero: at most 53
    digits, and exactly 53 above the subnormal range. *)
Definition canon (m e : Z) : Prop :=
  0 < m < 2 ^ 53 /\ -1074 <= e /\ (-1074 < e -> 2 ^ 52 <= m).

(** The doubles [180 / Math.PI], [Math.PI], 360 and 256, decoded. *)
Definition cK : spec_float := S754_finite false 8063664102031864 (-47).
Definition cPI : spec_float := S754_finite false 7074237752028440 (-51).
Definition c360 : spec_float := S754_finite false 6333186975989760 (-44).
Definition c256 : spec_float := S754_finite false 4503599627370496 (-44).

(** The double 1. *)
Definition c1 : spec_float := S754_finite false 4503599627370496 (-52).

(** [NatalChart.longitude_of] on decoded doubles. *)
Definition SFlongitude (x : spec_float) : spec_float :=
  let l := SFmul prec emax x cK in
  if SFltb l (S754_zero false) then SFadd prec emax l c360 else l.

End Rounding.

(** ** What the component relies on from [Math.atan2]

    ECMAScript has [Math.atan2] return an angle between [-Math.PI] and
    [Math.PI].  Here: on the vectors the provider delivers at [date]. *)

Definition angles_in_range (atan2 : float -> float -> float)
  (gv : Body -> Z -> bool -> result Vector) (date : Z) : Prop :=
  forall p v, In p PLANETS -> gv (key p) date true = Ok v ->
    (- Js.PI <=? atan2 (y v) (x v))%float = true /\
    (atan2 (y v) (x v) <=? Js.PI)%float = true.

(** ** What the layout relies on from [Math.cos] and [Math.sin]

    Values between -1 and 1. *)

Definition unit_range (c : float) : Prop :=
  (-1 <=? c)%float = true /\ (c <=? 1)%float = true.

(** The angle [getCoordinates] hands to [Math.cos] and [Math.sin]. *)
Definition radians_of (degree : float) : float :=
  (- degree * (Js.PI / 180))%float.

(** Both coordinates of a point between [lo] and [hi]. *)
Definition in_box (lo hi : float) (pt : Point) : Prop :=
  ((lo <=? px pt)%float = true /\ (px pt <=? hi)%float = true) /\
  ((lo <=? py pt)%float = true /\ (py pt <=? hi)%float = true).

(** ** The tooltip of a planet

    [Math.floor(planet.degree)], the number before the sign (line 222). *)

Definition tooltip_degree (p : Position) : float := Js.floor (degree p).

(** The small-angle stand-in for [Math.sin], kept between -1 and 1. *)
Definition clamped_sin (a : float) : float :=
  (if a <? -1 then -1 else if 1 <? a then 1 else a)%float.

(** ** Stand-ins for running the component

    Concrete collaborators, used only where a statement is evaluated on an
    input.  The stand-ins for [Math.atan2], [Math.cos] and [Math.sin] are
    the small-angle forms [y / x], [1] and [a]; the sample vectors lie on
    the positive x axis or a hair below it, where [y / x] is the double
    that [Math.atan2] returns. *)

Module Sample.

Local Open Scope float_scope.

Definition atan2 (y x : float) : float := y / x.
Definition cos (a : float) : float := 1.
Definition sin (a : float) : float := a.

(** A machine on Eastern time around the change of 2024-03-10: five
    hours behind UTC until 07:00 UTC of that day, four hours behind from
    then on.  The local times from 02:00 to 03:00 of that day do not
    exist; [UTC] reads them five hours behind. *)
Definition eastern : Zone :=
  {| LocalTime := fun t =>
       (if t <? 1710054000000 then t - 18000000 else t - 14400000)%Z;
     UTC := fun l =>
       (if l <? 1710039600000 then l + 18000000 else l + 14400000)%Z |}.

(** A machine whose local time is UTC. *)
Definition UTC : Zone := {| LocalTime := fun t => t; UTC := fun t => t |}.

(** Every body on the positive x axis. *)
Definition still_sky (b : Body) (t : Z) (aberration : bool)
  : result Vector :=
  Ok {| x := 1; y := 0; z := 0 |}.

(** The same sky, from a provider that cannot compute Mars. *)
Definition no_mars (b : Body) (t : Z) (aberration : bool) : result Vector :=
  match b with
  | Mars => Throw "Invalid body"
  | _ => still_sky b t aberration
  end.

(** Every body a hair below the positive x axis: the angle of the vector
    is the double nearest to -1e-20 radians. *)
Definition hair_below_axis (b : Body) (t : Z) (aberration : bool)
  : result Vector :=
  Ok {| x := 1; y := -0x1.79ca10c924223p-67; z := 0 |}.

(** 1990-06-15 at 09:00:00.000 (a date picked in the morning) and two
    clock readings of 14:30 on 2024-01-01, one second and a bit apart. *)
Definition dob : Dayjs := {| tv := 645440400000 |}.
Definition tob : Dayjs := {| tv := 1704119400000 |}.
Definition tob_later : Dayjs := {| tv := 1704119401250 |}.

(** On the Eastern machine: 2024-03-10 picked at 09:00 (13:00 UTC), and
    the time 02:30 picked on 2024-06-01 (06:30 UTC). *)
Definition dob_change_day : Dayjs := {| tv := 1710075600000 |}.
Definition tob_0230 : Dayjs := {| tv := 1717223400000 |}.


End Sample.

(** ** The form component (AstrologyReader)

    The four [useState] cells, the submit handler [handleFinish] and what
    the returned JSX shows of the state.  The handler runs in two parts,
    before and after the [await] on [axios.post]; the text of the prompt
    reaches the state only through what the endpoint replies, so the reply
    is the handler's second input. *)

Module App.

Record FormValues : Type := {
  form_name : string;
  form_gender : string;
  form_dob : Dayjs;
  form_tob : Dayjs
}.

Record ChartData : Type := { dob : Dayjs; tob : Dayjs }.

(** [response.data]: the JSON body, whose [result] may be missing. *)
Record ApiResponse : Type := { api_result : option string }.

(** What [await axios.post(...)] gives: a response whose [data] may be
    empty ([None]), or an exception (no network, a status outside 2xx). *)
Definition Reply : Type := result (option ApiResponse).

Record State : Type := {
  st_loading : bool;
  st_result : option string;
  st_error : option string;
  st_chartData : option ChartData
}.

Definition setLoading (v : bool) (s : State) : State :=
  {| st_loading := v; st_result := st_result s; st_error := st_error s;
     st_chartData := st_chartData s |}.
Definition setResult (v : option string) (s : State) : State :=
  {| st_loading := st_loading s; st_result := v; st_error := st_error s;
     st_chartData := st_chartData s |}.
Definition setError (v : option string) (s : State) : State :=
  {| st_loading := st_loading s; st_result := st_result s; st_error := v;
     st_chartData := st_chartData s |}.
Definition setChartData (v : option ChartData) (s : State) : State :=
  {| st_loading := st_loading s; st_result := st_result s;
     st_error := st_error s; st_chartData := v |}.

(** What the handler does besides setting state. *)
Inductive Effect : Type :=
| MessageSuccess
| ConsoleError (err : string).

Definition API_ERROR : string :=
  "The connection to the stars is cloudy (API Error). Please try again.".

(** A string or [null] in a condition: [null], [undefined] and the empty
    string are falsy. *)
Definition truthy (v : option string) : bool :=
  match v with
  | Some (String _ _) => true
  | _ => false
  end.

(** Lines 63-73: the four resets, then the chart data, up to the
    [await]. *)
Definition before_await (values : FormValues) (s : State) : State :=
  setChartData (Some {| dob := form_dob values; tob := form_tob values |})
    (setChartData None
       (setError None (setResult None (setLoading true s)))).

(** Lines 98-107: the rest of the [try] block, once the request settled. *)
Definition handle_response (reply : Reply) (s : State)
  : result (State * list Effect) :=
  response <- reply ;;
  match response with
  | Some data =>
      if truthy (api_result data)
      then Ok (setResult (api_result data) s, [MessageSuccess])
      else Throw "Invalid response"
  | None => Throw "Invalid response"
  end.

(** Lines 108-115: [catch] and [finally]. *)
Definition after_await (reply : Reply) (s : State) : State * list Effect :=
  let '(s', effects) :=
    match handle_response reply s with
    | Ok done => done
    | Throw err => (setError (Some API_ERROR) s, [ConsoleError err])
    end in
  (setLoading false s', effects).

Definition handleFinish (values : FormValues) (reply : Reply) (s : State)
  : State * list Effect :=
  after_await reply (before_await values s).

(** The state at mount. *)
Definition initial : State :=
  {| st_loading := false; st_result := None; st_error := None;
     st_chartData := None |}.

Section View.

Variable atan2 : float -> float -> float.
Variable zone : Zone.
Variable GeoVector : Body -> Z -> bool -> result Vector.

(** What a render shows: the label of the button, the error banner, and
    inside the results area the chart (the positions [NatalChart] computes
    from its props) and the reading. *)
Record View : Type := {
  button_label : string;
  error_banner : option string;
  results_area : bool;
  chart : option (list Position);
  reading : option string
}.

(** Lines 118-337.  Rendering [<NatalChart>] runs [planetaryPositions], so
    a render can throw. *)
Definition view (s : State) : result View :=
  let results :=
    truthy (st_result s)
    || match st_chartData s with Some _ => true | None => false end in
  shown <-
    match st_chartData s with
    | Some c =>
        if results then
          ps <- NatalChart.planetaryPositions atan2 zone GeoVector
                  (dob c) (tob c) ;;
          Ok (Some ps)
        else Ok None
    | None => Ok None
    end ;;
  Ok {| button_label :=
          if st_loading s then "Consulting the Stars..."
          else "Reveal My Destiny";
        error_banner := if truthy (st_error s) then st_error s else None;
        results_area := results;
        chart := shown;
        reading :=
          if results && truthy (st_result s) then st_result s else None |}.

End View.

End App.

(** A submission of the form, for running the handler: the date and the
    time of [Sample]. *)
Definition sample_values : App.FormValues :=
  {| App.form_name := "Ada"; App.form_gender := "female";
     App.form_dob := Sample.dob; App.form_tob := Sample.tob |}.

(** * Properties *)

(** ** Exceptions and [Array.prototype.map] *)

Lemma array_map_throws {A B : Type} (f : A -> result B) xs a msg :
  In a xs -> f a = Throw msg -> exists msg', array_map f xs = Throw msg'.
Proof.
  induction xs as [|b rest IH]; intros Hin Hthrow; [destruct Hin|].
  simpl. destruct (f b) as [v|m] eqn:Hb; simpl.
  - destruct Hin as [->|Hin]; [congruence|].
    destruct (IH Hin Hthrow) as [m' ->]. exists m'. reflexivity.
  - exists m. reflexivity.
Qed.

Lemma array_map_returns {A B : Type} (f : A -> result B) xs ys :
  array_map f xs = Ok ys -> Forall2 (fun a b => f a = Ok b) xs ys.
Proof.
  revert ys. induction xs as [|a rest IH]; intros ys; simpl.
  - intros [= <-]. constructor.
  - destruct (f a) as [v|m] eqn:Ha; simpl; [|discriminate].
    destruct (array_map f rest) as [vs|m] eqn:Hrest; simpl; [|discriminate].
    intros [= <-]. constructor; [exact Ha | apply IH; reflexivity].
Qed.

Lemma array_map_answers {A B : Type} (f : A -> result B) xs :
  (forall a, In a xs -> exists b, f a = Ok b) ->
  exists ys, array_map f xs = Ok ys.
Proof.
  induction xs as [|a rest IH]; intros Hf; simpl; [eexists; reflexivity|].
  destruct (Hf a (or_introl eq_refl)) as [b ->]; simpl.
  destruct IH as [ys ->]; [intros c Hc; apply Hf; right; exact Hc|].
  eexists. reflexivity.
Qed.

Lemma mapi_from_nth {A B : Type} (f : A -> nat -> B) xs k i :
  nth_error (mapi_from f k xs) i
  = option_map (fun a => f a (k + i)%nat) (nth_error xs i).
Proof.
  revert k i. induction xs as [|a rest IH]; intros k [|i]; simpl;
    try reflexivity.
  - rewrite Nat.add_0_r. reflexivity.
  - rewrite IH, Nat.add_succ_r. reflexivity.
Qed.


(** ** Time values *)

Ltac Zify.zify_post_hook ::= Z.to_euclidean_division_equations.

Module DateFacts.
Import Date.

Lemma fields_in_range t :
  0 <= HourFromTime t < 24 /\ 0 <= MinFromTime t < 60 /\
  0 <= SecFromTime t < 60 /\ 0 <= msFromTime t < 1000.
Proof.
  unfold HourFromTime, MinFromTime, SecFromTime, msFromTime, msPerSecond.
  repeat split; try apply Z.mod_pos_bound; lia.
Qed.

(** A time value is its day and its four fields put together again. *)
Lemma time_value_split t :
  t = MakeDate (Day t)
        (MakeTime (HourFromTime t) (MinFromTime t) (SecFromTime t)
           (msFromTime t)).
Proof.
  unfold MakeDate, MakeTime, Day, HourFromTime, MinFromTime, SecFromTime,
    msFromTime, msPerDay, msPerHour, msPerMinute, msPerSecond.
  lia.
Qed.

(** Fields in range are read back from the time value built from them. *)
Lemma fields_of_MakeDate d h m s ms :
  0 <= h < 24 -> 0 <= m < 60 -> 0 <= s < 60 -> 0 <= ms < 1000 ->
  let t := MakeDate d (MakeTime h m s ms) in
  Day t = d /\ HourFromTime t = h /\ MinFromTime t = m /\
  SecFromTime t = s /\ msFromTime t = ms.
Proof.
  intros Hh Hm Hs Hms.
  unfold MakeDate, MakeTime, Day, HourFromTime, MinFromTime, SecFromTime,
    msFromTime, msPerDay, msPerHour, msPerMinute, msPerSecond.
  cbv zeta. repeat split; lia.
Qed.

Section InZone.

Variable zone : Zone.

(** Each setter replaces its own field of the local time and leaves the
    day and the other fields alone, as long as the new value is in the
    field's range and the zone does not skip the local time built. *)
Lemma setHours_fields t h :
  0 <= h < 24 ->
  hour_exists zone (Day (LocalTime zone t)) h ->
  let l := LocalTime zone t in
  let l' := LocalTime zone (setHours zone t h) in
  Day l' = Day l /\ HourFromTime l' = h /\
  MinFromTime l' = MinFromTime l /\
  SecFromTime l' = SecFromTime l /\
  msFromTime l' = msFromTime l.
Proof.
  intros Hh Hex. cbv zeta. unfold setHours.
  set (l := LocalTime zone t) in *.
  destruct (fields_in_range l) as (_ & Hm & Hs & Hms).
  pose proof (fields_of_MakeDate (Day l) h _ _ _ Hh Hm Hs Hms) as Hf.
  cbv zeta in Hf. rewrite Hex by apply Hf. exact Hf.
Qed.

Lemma setMinutes_fields t m :
  0 <= m < 60 ->
  hour_exists zone (Day (LocalTime zone t)) (HourFromTime (LocalTime zone t)) ->
  let l := LocalTime zone t in
  let l' := LocalTime zone (setMinutes zone t m) in
  Day l' = Day l /\ HourFromTime l' = HourFromTime l /\
  MinFromTime l' = m /\
  SecFromTime l' = SecFromTime l /\
  msFromTime l' = msFromTime l.
Proof.
  intros Hm Hex. cbv zeta. unfold setMinutes.
  set (l := LocalTime zone t) in *.
  destruct (fields_in_range l) as (Hh & _ & Hs & Hms).
  pose proof (fields_of_MakeDate (Day l) _ m _ _ Hh Hm Hs Hms) as Hf.
  cbv zeta in Hf. rewrite Hex by apply Hf. exact Hf.
Qed.

Lemma setSeconds_fields t sec :
  0 <= sec < 60 ->
  hour_exists zone (Day (LocalTime zone t)) (HourFromTime (LocalTime zone t)) ->
  let l := LocalTime zone t in
  let l' := LocalTime zone (setSeconds zone t sec) in
  Day l' = Day l /\ HourFromTime l' = HourFromTime l /\
  MinFromTime l' = MinFromTime l /\
  SecFromTime l' = sec /\
  msFromTime l' = msFromTime l.
Proof.
  intros Hs Hex. cbv zeta. unfold setSeconds.
  set (l := LocalTime zone t) in *.
  destruct (fields_in_range l) as (Hh & Hm & _ & Hms).
  pose proof (fields_of_MakeDate (Day l) _ _ sec _ Hh Hm Hs Hms) as Hf.
  cbv zeta in Hf. rewrite Hex by apply Hf. exact Hf.
Qed.

End InZone.

End DateFacts.

(** ** The combined timestamp *)

Section Timestamp.
Import NatalChart.

Lemma dateObj_fields zone dob tob :
  Date.hour_exists zone (Date.Day (LocalTime zone (tv dob)))
    (dayjs.hour zone tob) ->
  let l := LocalTime zone (toDate (dateObj zone dob tob)) in
  Date.Day l = Date.Day (LocalTime zone (tv dob)) /\
  Date.HourFromTime l = dayjs.hour zone tob /\
  Date.MinFromTime l = dayjs.minute zone tob /\
  Date.SecFromTime l = 0 /\
  Date.msFromTime l = dayjs.millisecond zone dob.
Proof.
  intros Hex. cbv zeta.
  unfold toDate, dateObj, dayjs.set_second, dayjs.set_minute, dayjs.set_hour,
    dayjs.hour, dayjs.minute, dayjs.millisecond, Date.getHours,
    Date.getMinutes, Date.getMilliseconds in *; cbn [tv] in *.
  destruct (DateFacts.fields_in_range (LocalTime zone (tv tob)))
    as (Hh & Hm & _ & _).
  set (h := Date.HourFromTime (LocalTime zone (tv tob))) in *.
  set (m := Date.MinFromTime (LocalTime zone (tv tob))) in *.
  destruct (DateFacts.setHours_fields zone (tv dob) h Hh Hex)
    as (D1 & H1 & _ & _ & MS1).
  set (t1 := Date.setHours zone (tv dob) h) in *.
  assert (Hex1 : Date.hour_exists zone (Date.Day (LocalTime zone t1))
                   (Date.HourFromTime (LocalTime zone t1)))
    by (rewrite D1, H1; exact Hex).
  destruct (DateFacts.setMinutes_fields zone t1 m Hm Hex1)
    as (D2 & H2 & M2 & _ & MS2).
  set (t2 := Date.setMinutes zone t1 m) in *.
  assert (Hex2 : Date.hour_exists zone (Date.Day (LocalTime zone t2))
                   (Date.HourFromTime (LocalTime zone t2)))
    by (rewrite D2, H2; exact Hex1).
  destruct (DateFacts.setSeconds_fields zone t2 0 ltac:(lia) Hex2)
    as (D3 & H3 & M3 & S3 & MS3).
  repeat split; congruence.
Qed.

(** C7, where the local time exists.  The projector gives the provider,
    for every body, the [Date] that [toDate()] makes of the combined
    timestamp.  When the machine's zone skips no local time of the birth
    hour on the birth day, that [Date] reads, in local time, the year, the
    month and the day of the month of the birth date, the hour and the
    minute of the birth time, and zero seconds.  (Its milliseconds stay
    those of the birth date.) *)
Theorem combined_timestamp_fields :
  forall (zone : Zone) (dob tob : Dayjs),
    Date.hour_exists zone (Date.Day (LocalTime zone (tv dob)))
      (dayjs.hour zone tob) ->
    let T := toDate (dateObj zone dob tob) in
    (forall (atan2 : float -> float -> float)
            (gv : Body -> Z -> bool -> result Vector),
        planetaryPositions atan2 zone gv dob tob
        = array_map
            (fun p => vector <- gv (key p) T true ;;
                      Ok (position_at atan2 p vector))
            PLANETS) /\
    Date.getFullYear zone T = dayjs.year zone dob /\
    Date.getMonth zone T = dayjs.month zone dob /\
    Date.getDate zone T = dayjs.date zone dob /\
    Date.getHours zone T = dayjs.hour zone tob /\
    Date.getMinutes zone T = dayjs.minute zone tob /\
    Date.getSeconds zone T = 0.
Proof.
  intros zone dob tob Hex.
  destruct (dateObj_fields zone dob tob Hex) as (Hday & Hh & Hm & Hs & _).
  cbv zeta. split; [reflexivity|].
  unfold dayjs.year, dayjs.month, dayjs.date, Date.getFullYear,
    Date.getMonth, Date.getDate, Date.getHours, Date.getMinutes,
    Date.getSeconds, Date.YearFromTime, Date.MonthFromTime,
    Date.DateFromTime.
  rewrite Hday. repeat split; assumption.
Qed.

(** The birth time enters the timestamp through its hour and minute
    only. *)
Lemma dateObj_reads_hour_minute zone dob tob1 tob2 :
  dayjs.hour zone tob1 = dayjs.hour zone tob2 ->
  dayjs.minute zone tob1 = dayjs.minute zone tob2 ->
  dateObj zone dob tob1 = dateObj zone dob tob2.
Proof.
  intros Hh Hm. unfold dateObj. rewrite Hh, Hm. reflexivity.
Qed.

End Timestamp.

(** ** The projector *)

Section Projector.
Import NatalChart.

Variable atan2 : float -> float -> float.
Variable zone : Zone.

Lemma position_of_answer gv date p v :
  gv (key p) date true = Ok v ->
  position_of atan2 gv date p = Ok (position_at atan2 p v).
Proof. intros H. unfold position_of. rewrite H. reflexivity. Qed.

Lemma position_of_throw gv date p msg :
  gv (key p) date true = Throw msg ->
  position_of atan2 gv date p = Throw msg.
Proof. intros H. unfold position_of. rewrite H. reflexivity. Qed.

Lemma position_of_planet gv date p pos :
  position_of atan2 gv date p = Ok pos -> planet pos = p.
Proof.
  unfold position_of.
  destruct (gv (key p) date true); simpl; [|discriminate].
  intros [= <-]. reflexivity.
Qed.

Lemma positions_keep_planets gv date ps poss :
  array_map (position_of atan2 gv date) ps = Ok poss ->
  map planet poss = ps.
Proof.
  intros H. apply array_map_returns in H.
  induction H as [|p pos ps poss Hp _ IH]; simpl; [reflexivity|].
  rewrite (position_of_planet _ _ _ _ Hp), IH. reflexivity.
Qed.

(** C4.  Whenever the projector returns, it returns seven positions, one
    per row of [PLANETS] and in the order of the table, each carrying its
    row (name, provider key, symbol, color) unchanged; and it does return,
    for every birth moment, when the provider answers for every body. *)
Theorem seven_positions_in_table_order :
  forall (gv : Body -> Z -> bool -> result Vector) (dob tob : Dayjs),
    (forall ps, planetaryPositions atan2 zone gv dob tob = Ok ps ->
       List.length ps = 7%nat /\ map planet ps = PLANETS /\
       map (fun p => name (planet p)) ps
       = ["Sun"; "Moon"; "Mercury"; "Venus"; "Mars"; "Jupiter"; "Saturn"]
         %string)
    /\
    ((forall b, exists v, gv b (toDate (dateObj zone dob tob)) true = Ok v) ->
     exists ps, planetaryPositions atan2 zone gv dob tob = Ok ps).
Proof.
  intros gv dob tob. split.
  - intros ps H. unfold planetaryPositions in H.
    apply positions_keep_planets in H.
    assert (Hlen : List.length ps = 7%nat)
      by (rewrite <- (length_map planet), H; reflexivity).
    repeat split; [exact Hlen | exact H |].
    rewrite <- (map_map planet name), H. reflexivity.
  - intros Hgv. unfold planetaryPositions.
    apply array_map_answers. intros p _.
    destruct (Hgv (key p)) as [v Hv]. exists (position_at atan2 p v).
    apply position_of_answer. exact Hv.
Qed.

(** C10.  Two birth times with the same hour and the same minute give,
    with any birth date, the same positions: nothing else of the birth
    time is read. *)
Theorem positions_read_hour_and_minute_only :
  forall (gv : Body -> Z -> bool -> result Vector) (dob tob1 tob2 : Dayjs),
    dayjs.hour zone tob1 = dayjs.hour zone tob2 ->
    dayjs.minute zone tob1 = dayjs.minute zone tob2 ->
    planetaryPositions atan2 zone gv dob tob1
    = planetaryPositions atan2 zone gv dob tob2.
Proof.
  intros gv dob tob1 tob2 Hh Hm. unfold planetaryPositions.
  rewrite (dateObj_reads_hour_minute zone dob tob1 tob2 Hh Hm). reflexivity.
Qed.

(** C1 as the code has it.  An exception of the provider, for whichever
    body, leaves [PLANETS.map]: the projector throws and returns no
    position at all. *)
Theorem provider_failure_aborts_projection :
  forall (gv : Body -> Z -> bool -> result Vector) (dob tob : Dayjs)
         (p : Planet) (msg : string),
    In p PLANETS ->
    gv (key p) (toDate (dateObj zone dob tob)) true = Throw msg ->
    exists msg', planetaryPositions atan2 zone gv dob tob = Throw msg'.
Proof.
  intros gv dob tob p msg Hin Hthrow. unfold planetaryPositions.
  apply array_map_throws with (a := p) (msg := msg); [exact Hin|].
  apply position_of_throw. exact Hthrow.
Qed.

End Projector.

(** ** Doubles *)

Module FloatFacts.

Lemma binary_round_aux_opp s m e l :
  SFopp (binary_round_aux prec emax s m e l)
  = binary_round_aux prec emax (negb s) m e l.
Proof.
  unfold binary_round_aux.
  destruct (shr_fexp prec emax m e l) as [mrs' e'].
  destruct (shr_fexp prec emax _ e' loc_Exact) as [mrs'' e''].
  destruct (shr_m mrs''); try reflexivity.
  destruct (e'' <=? emax - prec); reflexivity.
Qed.

Lemma SFmul_opp_l a b :
  SFmul prec emax (SFopp a) b = SFopp (SFmul prec emax a b).
Proof.
  destruct a as [sa|sa| |sa ma ea], b as [sb|sb| |sb mb eb]; simpl;
    try reflexivity; try (destruct sa, sb; reflexivity).
  rewrite binary_round_aux_opp. destruct sa, sb; reflexivity.
Qed.

(** Negating a factor negates the product, exactly. *)
Lemma mul_opp_l (a b : float) : (- a * b = - (a * b))%float.
Proof.
  apply Prim2SF_inj.
  rewrite opp_spec, !mul_spec, opp_spec. apply SFmul_opp_l.
Qed.

Lemma SFeqb_finite x s m e :
  SFeqb x (S754_finite s m e) = true -> x = S754_finite s m e.
Proof.
  unfold SFeqb.
  destruct x as [sx|sx| |sx mx ex]; simpl;
    try discriminate; try (destruct sx; discriminate);
    try (destruct s; discriminate).
  destruct sx, s; try discriminate;
    destruct (Z.compare_spec ex e) as [->| |]; try discriminate;
    change (Pos.compare_cont Eq mx m) with (Pos.compare mx m);
    destruct (Pos.compare_spec mx m) as [->| |]; try discriminate;
    reflexivity.
Qed.

Lemma SFeqb_zero x s :
  SFeqb x (S754_zero s) = true -> exists s', x = S754_zero s'.
Proof.
  unfold SFeqb.
  destruct x as [sx|sx| |sx mx ex]; simpl;
    try discriminate; try (destruct sx; discriminate).
  intros _. exists sx. reflexivity.
Qed.

(** A double that [==] a constant other than zero is that constant. *)
Lemma eqb_finite (i c : float) s m e :
  Prim2SF c = S754_finite s m e -> PrimFloat.eqb i c = true -> i = c.
Proof.
  intros Hc H. rewrite eqb_spec, Hc in H.
  apply Prim2SF_inj. rewrite Hc. apply SFeqb_finite. exact H.
Qed.

(** A double that [==] zero is one of the two zeros. *)
Lemma eqb_zero (i : float) :
  PrimFloat.eqb i 0 = true -> i = 0%float \/ i = (-0)%float.
Proof.
  intros H. rewrite eqb_spec in H.
  destruct (SFeqb_zero _ false H) as [[|] Hs]; [right|left];
    apply Prim2SF_inj; rewrite Hs; reflexivity.
Qed.

(** Two doubles whose decodings differ are different. *)
Lemma neq_by_decoding (a b : float) : Prim2SF a <> Prim2SF b -> a <> b.
Proof. intros H Hab. apply H. rewrite Hab. reflexivity. Qed.

End FloatFacts.

(** ** Array access by a number *)

Lemma get_from_found {A : Type} (xs : list A) k i a :
  Js.get_from xs k i = Some a ->
  exists j, nth_error xs j = Some a /\
            PrimFloat.eqb i (Js.of_nat (k + j)) = true.
Proof.
  revert k. induction xs as [|b rest IH]; intros k; simpl; [discriminate|].
  destruct (PrimFloat.eqb i (Js.of_nat k)) eqn:Hk.
  - intros [= <-]. exists 0%nat. rewrite Nat.add_0_r. split; trivial.
  - intros H. destruct (IH _ H) as (j & Hj & Hi).
    exists (S j). rewrite Nat.add_succ_r. split; assumption.
Qed.

(** An index found in the table of signs is numerically in [0, 11]. *)
Lemma sign_index_found_in_range i s :
  Js.get ZODIAC_SIGNS i = Some s ->
  (PrimFloat.leb 0 i && PrimFloat.leb i 11 = true)%float.
Proof.
  intros H. apply get_from_found in H. destruct H as (j & Hj & Hi).
  assert (Hlt : (j < 12)%nat).
  { change 12%nat with (List.length ZODIAC_SIGNS).
    apply nth_error_Some. rewrite Hj. discriminate. }
  simpl in Hi.
  do 12 (destruct j as [|j];
         [ first
             [ apply FloatFacts.eqb_zero in Hi; destruct Hi as [->| ->];
               reflexivity
             | eapply FloatFacts.eqb_finite in Hi;
               [rewrite Hi; reflexivity | vm_compute; reflexivity] ]
         | ]).
  lia.
Qed.

(** ** Classification *)

Section Classification.
Import NatalChart.
Local Open Scope float_scope.

(** C9.  Whatever the longitude (NaN and the infinities included), when
    the index [Math.floor(longitude / 30)] is not within [0, 11] the sign is
    the empty string: the table lookup reads [undefined], the optional chain
    passes it on and [||] replaces it.  Nothing in the classification can
    throw, so the callback returns for every vector it is given. *)
Theorem sign_outside_table_is_empty :
  forall longitude : float,
    (0 <=? signIndex_of longitude) && (signIndex_of longitude <=? 11) = false ->
    Js.get ZODIAC_SIGNS (signIndex_of longitude) = None /\
    signName_of longitude = EmptyString /\
    forall atan2 gv date p v,
      gv (key p) date true = Ok v ->
      longitude_of (atan2 (y v) (x v)) = longitude ->
      position_of atan2 gv date p
      = Ok {| planet := p; degree := longitude; sign := EmptyString |}.
Proof.
  intros longitude Hout.
  assert (Hnone : Js.get ZODIAC_SIGNS (signIndex_of longitude) = None).
  { destruct (Js.get ZODIAC_SIGNS (signIndex_of longitude)) as [s|] eqn:Hget;
      [|reflexivity].
    apply sign_index_found_in_range in Hget. congruence. }
  assert (Hname : signName_of longitude = EmptyString).
  { unfold signName_of. rewrite Hnone. reflexivity. }
  repeat split; try assumption.
  intros atan2 gv date p v Hv Hlong.
  unfold position_of. rewrite Hv. simpl. rewrite Hlong, Hname.
  reflexivity.
Qed.

(** The same access without the optional chain would throw there. *)
Lemma plain_member_access_throws :
  exists msg, Js.member (Js.get ZODIAC_SIGNS (signIndex_of 360)) sign_name
              = Throw msg.
Proof. eexists. vm_compute. reflexivity. Qed.

End Classification.

(** ** Layout *)

Section Layout.
Import NatalChart.
Local Open Scope float_scope.

Variables cos sin : float -> float.

(** C6.  [getCoordinates] puts the point of angle [degree] and radius [r]
    at [center + r * cos a] and [center + r * sin a], where [center] is 160
    and [a] is the negated angle in radians, [-(degree * (PI / 180))]; the
    code negates the degree first, which gives the same double.  Degree 0
    is the direction of the x axis: there the angle is (negative) zero. *)
Theorem getCoordinates_formula :
  forall degree r : float,
    let a := - (degree * (Js.PI / 180)) in
    getCoordinates cos sin degree r
    = {| px := center + r * cos a; py := center + r * sin a |}
    /\ a = - degree * (Js.PI / 180)
    /\ center = 160
    /\ getCoordinates cos sin 0 r
       = {| px := center + r * cos (-0); py := center + r * sin (-0) |}.
Proof.
  intros degree r. cbv zeta. unfold getCoordinates.
  rewrite FloatFacts.mul_opp_l. repeat split; reflexivity.
Qed.

Lemma mod2_even index :
  Nat.modulo index 2 = if Nat.even index then 0%nat else 1%nat.
Proof.
  pose proof (Nat.mod_upper_bound index 2 ltac:(discriminate)) as Hlt.
  rewrite (Nat.div_mod_eq index 2) at 2.
  destruct (Nat.modulo index 2) as [|[|k]]; [| |lia].
  - rewrite Nat.add_0_r, Nat.even_even. reflexivity.
  - rewrite Nat.even_odd. reflexivity.
Qed.

Lemma rem2_even index : Js.rem2 index = if Nat.even index then 0 else 1.
Proof.
  unfold Js.rem2. rewrite mod2_even.
  destruct (Nat.even index); reflexivity.
Qed.

(** C8.  The marker of the body at index [index] is drawn at radius
    [innerRadius - 20 - (index mod 2) * 15]: 90, that is [innerRadius - 20],
    at even indices and 75, that is [innerRadius - 35], at odd ones.  Two
    bodies next to each other in the list never share a radius, whatever
    their longitudes. *)
Theorem planet_radius_alternates :
  forall (positions : list Position) (index : nat),
    nth_error (planetCoords cos sin positions) index
    = option_map
        (fun p => getCoordinates cos sin (degree p) (planetRadius index))
        (nth_error positions index)
    /\ planetRadius index
       = innerRadius - 20 - Js.of_nat (Nat.modulo index 2) * 15
    /\ planetRadius index
       = (if Nat.even index then innerRadius - 20 else innerRadius - 35)
    /\ planetRadius index = (if Nat.even index then 90 else 75)
    /\ planetRadius (S index) <> planetRadius index.
Proof.
  intros positions index. split; [|split].
  - unfold planetCoords, mapi. rewrite mapi_from_nth. reflexivity.
  - reflexivity.
  - assert (Hnext : Nat.even (S index) = negb (Nat.even index))
      by (rewrite Nat.even_succ, <- Nat.negb_even; reflexivity).
    unfold planetRadius. rewrite !rem2_even, Hnext.
    destruct (Nat.even index); simpl; (repeat split; try reflexivity);
      apply FloatFacts.neq_by_decoding; vm_compute; discriminate.
Qed.


End Layout.

(** ** Two runs *)

Section TwoRuns.
Import NatalChart.

Variable atan2 : float -> float -> float.
Variables cos sin : float -> float.
Variable zone : Zone.
Variable GeoVector : Body -> Z -> bool -> result Vector.
Variable heap : nat -> Dayjs.






End TwoRuns.

(** ** Dividing a double by 30

    The index of the sign is [Math.floor] of a rounded quotient.  The
    lemmas below follow IEEE division, as [SFdiv] specifies it, far enough
    to show that for a longitude in [0, 360) rounding never moves the
    quotient across an integer. *)

Module Div30.
Import Double.

Lemma digits2_pos_bounds m :
  2 ^ (Zpos (digits2_pos m) - 1) <= Zpos m < 2 ^ Zpos (digits2_pos m).
Proof.
  assert (Hstep : forall d, 0 < d -> 2 ^ d = 2 * 2 ^ (d - 1)).
  { intros d Hd. rewrite <- Z.pow_succ_r by lia. f_equal. lia. }
  induction m as [m IH|m IH|]; simpl digits2_pos;
    [ | |simpl; lia];
    rewrite Pos2Z.inj_succ;
    replace (Z.succ (Zpos (digits2_pos m)) - 1)
      with (Zpos (digits2_pos m)) by lia;
    rewrite Z.pow_succ_r by lia;
    rewrite (Hstep (Zpos (digits2_pos m))) in * by lia; lia.
Qed.

Lemma digits2_pos_unique m d :
  2 ^ (d - 1) <= Zpos m < 2 ^ d -> Zpos (digits2_pos m) = d.
Proof.
  intros [Hlo Hhi]. pose proof (digits2_pos_bounds m) as [Hlo' Hhi'].
  set (d' := Zpos (digits2_pos m)) in *.
  assert (0 < d') by (unfold d'; lia).
  assert (0 < d).
  { destruct (Z_lt_le_dec 0 d); trivial.
    destruct (Z.eq_dec d 0) as [->|]; [simpl in Hhi; lia|].
    rewrite Z.pow_neg_r in Hhi by lia. lia. }
  destruct (Z_lt_le_dec d d') as [Hlt|Hle].
  - assert (2 ^ d <= 2 ^ (d' - 1)) by (apply Z.pow_le_mono_r; lia). lia.
  - destruct (Z_lt_le_dec d' d) as [Hlt|Hle']; [|lia].
    assert (2 ^ d' <= 2 ^ (d - 1)) by (apply Z.pow_le_mono_r; lia). lia.
Qed.

Lemma Zdigits2_le m d : 0 <= d -> 0 <= m < 2 ^ d -> 0 <= Zdigits2 m <= d.
Proof.
  intros Hd Hm. destruct m as [|p|p]; simpl; try lia.
  pose proof (digits2_pos_bounds p) as [Hlo _].
  split; [lia|].
  destruct (Z_lt_le_dec d (Zpos (digits2_pos p))) as [Hlt|]; [|lia].
  assert (2 ^ d <= 2 ^ (Zpos (digits2_pos p) - 1))
    by (apply Z.pow_le_mono_r; lia).
  lia.
Qed.

Lemma fexp_eq e : fexp prec emax e = Z.max (e - 53) (-1074).
Proof. reflexivity. Qed.

Lemma bounded_digits m e :
  bounded prec emax m e = true ->
  Zpos (digits2_pos m) <= 53 /\ -1074 <= e /\
  (-1074 < e -> Zpos (digits2_pos m) = 53).
Proof.
  unfold bounded, canonical_mantissa. intros H.
  apply andb_prop in H. destruct H as [H _]. apply Z.eqb_eq in H.
  rewrite fexp_eq in H. lia.
Qed.

Lemma div_eucl_pair a b : Z.div_eucl a b = (a / b, a mod b).
Proof. unfold Z.div, Z.modulo. destruct (Z.div_eucl a b); reflexivity. Qed.

(** *** Shifts and rounding *)

Lemma shr_m_of_loc m l : shr_m (shr_record_of_loc m l) = m.
Proof. destruct l as [|[]]; reflexivity. Qed.

Lemma loc_of_shr_of_loc m l : loc_of_shr_record (shr_record_of_loc m l) = l.
Proof. destruct l as [|[]]; reflexivity. Qed.

Lemma round_nearest_even_range m l :
  m <= round_nearest_even m l <= m + 1.
Proof.
  destruct l as [|[]]; unfold round_nearest_even; try lia.
  destruct (Z.even m); lia.
Qed.

Lemma shr_1_of_loc q l :
  shr_1 (shr_record_of_loc (Zpos q) l)
  = {| shr_m := Zpos q / 2; shr_r := Z.odd (Zpos q); shr_s := sticky l |}.
Proof.
  assert (Hm : forall p, Zpos p~1 / 2 = Zpos p) by (intros; lia).
  assert (Hn : forall p, Zpos p~0 / 2 = Zpos p) by (intros; lia).
  destruct q as [p|p|]; rewrite ?Hm, ?Hn; destruct l as [|[]]; reflexivity.
Qed.

Lemma shr_1_bounds mrs B :
  0 <= shr_m mrs <= B -> 0 <= shr_m (shr_1 mrs) <= B.
Proof.
  destruct mrs as [m r s]. simpl shr_m at 1 2.
  destruct m as [|[p|p|]|p]; simpl; lia.
Qed.

Lemma iter_shr_1_bounds p : forall mrs B,
  0 <= shr_m mrs <= B -> 0 <= shr_m (iter_pos shr_1 p mrs) <= B.
Proof.
  induction p as [p IH|p IH|]; intros mrs B H; simpl.
  - apply IH, IH, shr_1_bounds, H.
  - apply IH, IH, H.
  - apply shr_1_bounds, H.
Qed.

(** A shift to the format's exponent never grows the mantissa, and ends at
    the larger of the two exponents. *)
Lemma shr_fexp_bounds m e l :
  0 <= m ->
  0 <= shr_m (fst (shr_fexp prec emax m e l)) <= m /\
  snd (shr_fexp prec emax m e l)
  = Z.max e (fexp prec emax (Zdigits2 m + e)).
Proof.
  intros Hm. unfold shr_fexp, shr.
  destruct (fexp prec emax (Zdigits2 m + e) - e) as [|p|p] eqn:Hn; simpl.
  - rewrite shr_m_of_loc. lia.
  - split; [|lia]. apply iter_shr_1_bounds. rewrite shr_m_of_loc. lia.
  - rewrite shr_m_of_loc. lia.
Qed.

Ltac pow2 :=
  change (2 ^ (53 - 1)) with 4503599627370496 in *;
  change (2 ^ (54 - 1)) with 9007199254740992 in *;
  change (2 ^ 52) with 4503599627370496 in *;
  change (2 ^ 53) with 9007199254740992 in *;
  change (2 ^ 54) with 18014398509481984 in *.

(** The last step of [binary_round_aux] on a rounded mantissa of 53
    digits, or on [2^53] when rounding carried. *)
Lemma renormalize Q' E :
  2 ^ 52 <= Q' <= 2 ^ 53 -> -1074 <= E <= 970 ->
  (let '(mrs, e'') := shr_fexp prec emax Q' E loc_Exact in
   match shr_m mrs with
   | Z0 => S754_zero false
   | Zpos m =>
       if e'' <=? emax - prec then S754_finite false m e''
       else S754_infinity false
   | Zneg _ => S754_nan
   end)
  = if Q' <? 2 ^ 53 then S754_finite false (Z.to_pos Q') E
    else S754_finite false (Z.to_pos (2 ^ 52)) (E + 1).
Proof.
  intros HQ HE. destruct (Z.ltb_spec Q' (2 ^ 53)) as [Hlt|Hge].
  - destruct Q' as [|q|q]; try (exfalso; lia).
    unfold shr_fexp. change (Zdigits2 (Zpos q)) with (Zpos (digits2_pos q)).
    rewrite (digits2_pos_unique q 53) by lia.
    rewrite fexp_eq. replace (Z.max (53 + E - 53) (-1074) - E) with 0 by lia.
    simpl. destruct (Z.leb_spec E 971); [reflexivity|lia].
  - assert (Q' = 2 ^ 53) by lia. subst Q'.
    unfold shr_fexp. change (Zdigits2 (2 ^ 53)) with 54.
    rewrite fexp_eq. replace (Z.max (54 + E - 53) (-1074) - E) with 1 by lia.
    simpl. destruct (Z.leb_spec (E + 1) 971); [reflexivity|lia].
Qed.

(** Rounding a quotient of 53 digits: no shift, one rounding. *)
Lemma round_53_digits q E loc :
  Zpos (digits2_pos q) = 53 -> -1074 <= E <= 970 ->
  binary_round_aux prec emax false (Zpos q) E loc
  = let Q' := round_nearest_even (Zpos q) loc in
    if Q' <? 2 ^ 53 then S754_finite false (Z.to_pos Q') E
    else S754_finite false (Z.to_pos (2 ^ 52)) (E + 1).
Proof.
  intros Hd HE. pose proof (digits2_pos_bounds q) as Hb. rewrite Hd in Hb.
  unfold binary_round_aux.
  unfold shr_fexp at 1. change (Zdigits2 (Zpos q)) with (Zpos (digits2_pos q)).
  rewrite Hd, fexp_eq. replace (Z.max (53 + E - 53) (-1074) - E) with 0 by lia.
  unfold shr at 1. rewrite shr_m_of_loc, loc_of_shr_of_loc.
  pose proof (round_nearest_even_range (Zpos q) loc).
  apply renormalize; simpl in *; lia.
Qed.

(** Rounding a quotient of 54 digits: one bit is shifted out first. *)
Lemma round_54_digits q E loc :
  Zpos (digits2_pos q) = 54 -> -1075 <= E <= 969 ->
  binary_round_aux prec emax false (Zpos q) E loc
  = let Q' := round_nearest_even (Zpos q / 2)
                (loc_of_shr_record
                   {| shr_m := Zpos q / 2; shr_r := Z.odd (Zpos q);
                      shr_s := sticky loc |}) in
    if Q' <? 2 ^ 53 then S754_finite false (Z.to_pos Q') (E + 1)
    else S754_finite false (Z.to_pos (2 ^ 52)) (E + 2).
Proof.
  intros Hd HE. pose proof (digits2_pos_bounds q) as Hb. rewrite Hd in Hb.
  unfold binary_round_aux.
  unfold shr_fexp at 1. change (Zdigits2 (Zpos q)) with (Zpos (digits2_pos q)).
  rewrite Hd, fexp_eq. replace (Z.max (54 + E - 53) (-1074) - E) with 1 by lia.
  unfold shr at 1. simpl iter_pos. rewrite shr_1_of_loc.
  cbv zeta.
  set (l1 := loc_of_shr_record _).
  simpl shr_m.
  pose proof (round_nearest_even_range (Zpos q / 2) l1).
  assert (2 ^ 52 <= Zpos q / 2 < 2 ^ 53) by (pow2; lia).
  replace (E + 2) with (E + 1 + 1) by lia.
  apply renormalize; lia.
Qed.

(** *** The quotient *)

(** A double of 53 digits divided by 30: the integer quotient is
    [16 m / 15] at exponent [e - 5], and the remainder tells on which side
    of the half-way point the exact quotient lies. *)
Lemma div30_core m e :
  Zpos (digits2_pos m) = 53 -> -1069 <= e ->
  SFdiv_core_binary prec emax (Zpos m) e m30 (-48)
  = ((16 * Zpos m) / 15, e - 5,
     if (16 * Zpos m) mod 15 =? 0 then loc_Exact
     else loc_Inexact (2 * ((16 * Zpos m) mod 15) ?= 15)).
Proof.
  intros Hd He. unfold SFdiv_core_binary.
  change (Zdigits2 (Zpos m)) with (Zpos (digits2_pos m)). rewrite Hd.
  change (Zdigits2 m30) with 53.
  rewrite fexp_eq.
  replace (Z.min (Z.max (53 + e - (53 + -48) - 53) (-1074)) (e - -48))
    with (e - 5) by lia.
  replace (e - -48 - (e - 5)) with 53 by lia.
  rewrite div_eucl_pair.
  rewrite Z.shiftl_mul_pow2 by lia.
  replace (Zpos m * 2 ^ 53) with ((16 * Zpos m) * 2 ^ 49) by lia.
  change m30 with (15 * 2 ^ 49).
  rewrite Z.div_mul_cancel_r by lia.
  rewrite Z.mul_mod_distr_r by lia.
  set (rho := (16 * Zpos m) mod 15).
  assert (0 <= rho < 15) by (apply Z.mod_pos_bound; lia).
  unfold new_location.
  change (Z.even (15 * 2 ^ 49)) with true. cbv iota. unfold new_location_even.
  f_equal.
  destruct (Z.eqb_spec rho 0) as [->|Hne]; [reflexivity|].
  destruct (Z.eqb_spec (rho * 2 ^ 49) 0) as [H0|_]; [lia|].
  f_equal.
  destruct (Z.compare_spec (2 * rho) 15);
    destruct (Z.compare_spec (2 * (rho * 2 ^ 49)) (15 * 2 ^ 49));
    try reflexivity; lia.
Qed.

(** For a small double the quotient stays below [2^54] at an exponent of
    -56 or less. *)
Lemma div30_core_small m e :
  bounded prec emax m e = true -> e <= -51 ->
  exists Q e' loc,
    SFdiv_core_binary prec emax (Zpos m) e m30 (-48) = (Q, e', loc) /\
    0 <= Q < 2 ^ 54 /\ e' <= -56.
Proof.
  intros Hb He. apply bounded_digits in Hb. destruct Hb as (Hd & Hmin & _).
  pose proof (digits2_pos_bounds m) as [_ Hm].
  unfold SFdiv_core_binary.
  change (Zdigits2 (Zpos m)) with (Zpos (digits2_pos m)).
  change (Zdigits2 m30) with 53. rewrite fexp_eq.
  set (d := Zpos (digits2_pos m)) in *.
  set (e' := Z.min (Z.max (d + e - (53 + -48) - 53) (-1074)) (e - -48)).
  set (s := e - -48 - e').
  assert (Hs : 0 <= s <= 106 - d) by (unfold s, e'; lia).
  set (m' := match s with
             | Z.pos _ => Z.shiftl (Zpos m) s
             | 0 => Zpos m
             | Z.neg _ => 0
             end).
  assert (Hm' : m' = Zpos m * 2 ^ s).
  { unfold m'. destruct s as [|p|p] eqn:Hsp; [simpl; lia| |lia].
    rewrite Z.shiftl_mul_pow2 by lia. reflexivity. }
  assert (Hlt : 0 <= m' < 2 ^ 106).
  { rewrite Hm'. assert (0 < 2 ^ s) by (apply Z.pow_pos_nonneg; lia).
    split; [apply Z.mul_nonneg_nonneg; lia|].
    replace 106 with (d + (106 - d)) by lia. rewrite Z.pow_add_r by lia.
    assert (2 ^ s <= 2 ^ (106 - d)) by (apply Z.pow_le_mono_r; lia).
    apply Z.le_lt_trans with (Zpos m * 2 ^ (106 - d)).
    - apply Z.mul_le_mono_nonneg_l; lia.
    - apply Z.mul_lt_mono_pos_r; [|lia]. apply Z.pow_pos_nonneg; lia. }
  clearbody m'. rewrite div_eucl_pair.
  eexists _, _, _. split; [reflexivity|]. split; [|unfold e'; lia].
  change (2 ^ 106) with 81129638414606681695789005144064 in Hlt.
  change (2 ^ 54) with 18014398509481984. unfold m30. lia.
Qed.

(** Such a quotient rounds to a double below 1: a zero, or a mantissa at an
    exponent of -53 or less. *)
Lemma round_small mx ex lx :
  0 <= mx < 2 ^ 54 -> ex <= -56 ->
  binary_round_aux prec emax false mx ex lx = S754_zero false \/
  exists M E,
    binary_round_aux prec emax false mx ex lx = S754_finite false M E
    /\ E <= -53.
Proof.
  intros Hm He. unfold binary_round_aux.
  pose proof (shr_fexp_bounds mx ex lx ltac:(lia)) as [Hm1 He1].
  pose proof (Zdigits2_le mx 54 ltac:(lia) Hm) as Hd1.
  destruct (shr_fexp prec emax mx ex lx) as [mrs' e']. simpl in Hm1, He1.
  set (m2 := round_nearest_even (shr_m mrs') (loc_of_shr_record mrs')).
  pose proof (round_nearest_even_range (shr_m mrs') (loc_of_shr_record mrs'))
    as Hr.
  fold m2 in Hr.
  assert (Hm2 : 0 <= m2 < 2 ^ 55) by (change (2 ^ 55) with (2 * 2 ^ 54); lia).
  pose proof (shr_fexp_bounds m2 e' loc_Exact ltac:(lia)) as [Hm3 He3].
  pose proof (Zdigits2_le m2 55 ltac:(lia) Hm2) as Hd2.
  destruct (shr_fexp prec emax m2 e' loc_Exact) as [mrs'' e''].
  simpl in Hm3, He3.
  rewrite fexp_eq in He1, He3.
  assert (e'' <= -53) by lia.
  destruct (shr_m mrs'') as [|M|M]; [left; reflexivity| |lia].
  right. exists M, e''. destruct (Z.leb_spec e'' (emax - prec)) as [_|Hgt].
  - split; [reflexivity|assumption].
  - unfold emax, prec in Hgt. lia.
Qed.

(** *** The floor of the quotient *)

Lemma SFfloor_pos m e :
  e < 0 ->
  Js.SFfloor (S754_finite false m e)
  = binary_normalize prec emax (Zpos m / 2 ^ (- e)) 0 false.
Proof.
  intros He. unfold Js.SFfloor.
  destruct (Z.leb_spec 0 e); [lia|].
  rewrite Z.shiftr_div_pow2 by lia. reflexivity.
Qed.

Ltac exponent_cases He :=
  destruct He as [->|[->|[->|[->|[->|[->| ->]]]]]].

(** From 4 up to 512 the floor of the rounded quotient is the floor of the
    exact one: the double [m * 2^e] is a multiple of [2^e], 30 times an
    integer too, so the exact quotient is never within half a unit in the
    last place below an integer. *)
Lemma floor_div30_normal m e :
  Zpos (digits2_pos m) = 53 -> -50 <= e <= -44 ->
  Js.SFfloor (SFdiv prec emax (S754_finite false m e) c30)
  = binary_normalize prec emax (Zpos m * 2 ^ (e + 50) / (30 * 2 ^ 50)) 0 false.
Proof.
  intros Hd He.
  pose proof (digits2_pos_bounds m) as Hm. rewrite Hd in Hm.
  assert (He' : e = -50 \/ e = -49 \/ e = -48 \/ e = -47 \/ e = -46 \/
                e = -45 \/ e = -44) by lia.
  unfold SFdiv, c30. change (Zpos 8444249301319680) with m30.
  rewrite div30_core by lia.
  change (xorb false false) with false.
  set (Q := 16 * Zpos m / 15). set (rho := (16 * Zpos m) mod 15).
  assert (HQ : 16 * Zpos m = 15 * Q + rho /\ 0 <= rho < 15)
    by (unfold Q, rho; lia).
  clearbody Q rho.
  set (loc := if rho =? 0 then loc_Exact else loc_Inexact (2 * rho ?= 15)).
  pow2.
  destruct (Z_lt_le_dec Q (2 ^ 53)) as [Hlt|Hge].
  - destruct Q as [|q|q]; try lia.
    rewrite round_53_digits by (try apply digits2_pos_unique; pow2; lia).
    cbv zeta.
    pose proof (round_nearest_even_range (Zpos q) loc) as HR.
    assert (Hup : round_nearest_even (Zpos q) loc = Zpos q + 1 -> 8 <= rho).
    { unfold loc, round_nearest_even.
      destruct (Z.eqb_spec rho 0); [lia|].
      destruct (Z.compare_spec (2 * rho) 15); lia. }
    set (Q' := round_nearest_even (Zpos q) loc) in *. clearbody Q' loc.
    destruct (Z.ltb_spec Q' (2 ^ 53)); rewrite SFfloor_pos by lia; f_equal;
      rewrite ?Z2Pos.id by lia;
      exponent_cases He'; simpl Z.pow; simpl Z.opp; simpl Z.to_pos; lia.
  - destruct Q as [|q|q]; try lia.
    assert (Zpos q < 2 ^ 54) by (pow2; lia).
    rewrite round_54_digits by (try apply digits2_pos_unique; pow2; lia).
    cbv zeta.
    set (l1 := loc_of_shr_record _).
    pose proof (round_nearest_even_range (Zpos q / 2) l1) as HR.
    assert (Hup : round_nearest_even (Zpos q / 2) l1 = Zpos q / 2 + 1 ->
                  Zpos q = 2 * (Zpos q / 2) + 1).
    { unfold l1, round_nearest_even, loc_of_shr_record.
      destruct (Z.odd (Zpos q)) eqn:Ho.
      - intros _. apply Z.odd_spec in Ho. destruct Ho as [j Hj]. lia.
      - destruct (sticky loc); lia. }
    set (Q' := round_nearest_even (Zpos q / 2) l1) in *. clearbody Q' l1.
    destruct (Z.ltb_spec Q' (2 ^ 53)); rewrite SFfloor_pos by lia; f_equal;
      rewrite ?Z2Pos.id by lia;
      exponent_cases He'; simpl Z.pow; simpl Z.opp; simpl Z.to_pos; lia.
Qed.

(** Below 4 the rounded quotient is below 1, and its floor is zero. *)
Lemma floor_div30_small m e :
  bounded prec emax m e = true -> e <= -51 ->
  valid_binary (SFdiv prec emax (S754_finite false m e) c30) = true ->
  Js.SFfloor (SFdiv prec emax (S754_finite false m e) c30) = S754_zero false.
Proof.
  intros Hb He. unfold SFdiv, c30.
  change (Zpos 8444249301319680) with m30.
  destruct (div30_core_small m e Hb He) as (Q & e' & loc & -> & HQ & He').
  change (xorb false false) with false.
  destruct (round_small Q e' loc HQ He') as [-> | (M & E & -> & HE)];
    [reflexivity|].
  intros Hv. simpl in Hv. apply bounded_digits in Hv.
  destruct Hv as (Hd & _ & _).
  pose proof (digits2_pos_bounds M) as [_ HM].
  rewrite SFfloor_pos by lia.
  rewrite Z.div_small; [reflexivity|].
  split; [lia|].
  assert (2 ^ Zpos (digits2_pos M) <= 2 ^ (- E))
    by (apply Z.pow_le_mono_r; lia).
  lia.
Qed.

End Div30.

(** ** The sign of a longitude in range *)

Section Sectors.
Import NatalChart Double Div30.

Lemma SFltb_pos m1 e1 m2 e2 :
  SFltb (S754_finite false m1 e1) (S754_finite false m2 e2)
  = match e1 ?= e2 with
    | Lt => true
    | Gt => false
    | Eq => Zpos m1 <? Zpos m2
    end.
Proof. unfold SFltb, SFcompare. destruct (e1 ?= e2); reflexivity. Qed.

Lemma SFleb_pos m1 e1 m2 e2 :
  SFleb (S754_finite false m1 e1) (S754_finite false m2 e2)
  = match e1 ?= e2 with
    | Lt => true
    | Gt => false
    | Eq => Zpos m1 <=? Zpos m2
    end.
Proof. unfold SFleb, SFcompare. destruct (e1 ?= e2); reflexivity. Qed.

Lemma Prim2SF_30 : Prim2SF 30 = c30.
Proof. vm_compute. reflexivity. Qed.

Lemma Prim2SF_360 : Prim2SF 360 = S754_finite false 6333186975989760 (-44).
Proof. vm_compute. reflexivity. Qed.

Lemma signIndex_of_spec (L : float) :
  signIndex_of L = SF2Prim (Js.SFfloor (SFdiv prec emax (Prim2SF L) c30)).
Proof.
  unfold signIndex_of, Js.floor. rewrite div_spec, Prim2SF_30. reflexivity.
Qed.

Lemma below_360 m e :
  SFltb (S754_finite false m e) (S754_finite false 6333186975989760 (-44))
  = true ->
  e <= -44 /\ (e = -44 -> Zpos m < 6333186975989760).
Proof.
  rewrite SFltb_pos.
  destruct (Z.compare_spec e (-44)) as [->|Hc|Hc]; intros H.
  - split; [lia|]. intros _. apply Z.ltb_lt. exact H.
  - lia.
  - discriminate.
Qed.

Ltac eval_const :=
  match goal with
  | |- context [Prim2SF ?c] =>
      let v := eval vm_compute in (Prim2SF c) in
      replace (Prim2SF c) with v by (vm_compute; reflexivity)
  end.

Ltac eval_pow50 :=
  match goal with
  | |- context [Z.pow 2 (?a + 50)] =>
      let v := eval vm_compute in (Z.pow 2 (a + 50)) in
      replace (Z.pow 2 (a + 50)) with v in * by (vm_compute; reflexivity)
  end;
  replace (2 ^ 50) with 1125899906842624 in * by (vm_compute; reflexivity).

Ltac decide_cmp :=
  first [ reflexivity
        | apply Z.ltb_lt; lia
        | apply Z.leb_le; lia
        | exfalso; lia ].

Ltac compare_with_longitude L :=
  let Hle := fresh "Hle" in
  let Hlt := fresh "Hlt" in
  assert (Hle : forall c, (c <=? L)%float = SFleb (Prim2SF c) (Prim2SF L))
    by (intros; apply leb_spec);
  assert (Hlt : forall c, (L <? c)%float = SFltb (Prim2SF L) (Prim2SF c))
    by (intros; apply ltb_spec).

Lemma sector_of_zero (L : float) sgn :
  Prim2SF L = S754_zero sgn -> exists k s, in_sector L k s.
Proof.
  intros Hx. pose proof (signIndex_of_spec L) as Hidx.
  compare_with_longitude L. rewrite Hx in Hle, Hlt, Hidx.
  exists 0%nat. eexists. unfold in_sector. fold (signIndex_of L).
  split; [lia|]. split; [reflexivity|].
  split; [rewrite Hidx; destruct sgn; vm_compute; reflexivity|].
  split; [unfold signName_of; rewrite Hidx; destruct sgn; vm_compute;
          reflexivity|].
  rewrite Hle, Hlt. split; eval_const; destruct sgn; reflexivity.
Qed.

Lemma sector_of_small (L : float) m e :
  Prim2SF L = S754_finite false m e -> e <= -51 ->
  exists k s, in_sector L k s.
Proof.
  intros Hx Hsmall.
  pose proof (Prim2SF_valid L) as Hv. rewrite Hx in Hv.
  pose proof (Prim2SF_valid (L / 30)) as Hv30.
  rewrite div_spec, Prim2SF_30, Hx in Hv30.
  pose proof (signIndex_of_spec L) as Hidx.
  compare_with_longitude L. rewrite Hx in Hle, Hlt, Hidx.
  rewrite (floor_div30_small m e Hv Hsmall Hv30) in Hidx.
  exists 0%nat. eexists. unfold in_sector. fold (signIndex_of L).
  split; [lia|]. split; [reflexivity|].
  split; [rewrite Hidx; vm_compute; reflexivity|].
  split; [unfold signName_of; rewrite Hidx; vm_compute; reflexivity|].
  rewrite Hle, Hlt. split; eval_const; [reflexivity|].
  rewrite SFltb_pos. destruct (Z.compare_spec e (-48)); try reflexivity; lia.
Qed.

Lemma index_bound m e :
  4503599627370496 <= Z.pos m < 9007199254740992 ->
  e = -50 \/ e = -49 \/ e = -48 \/ e = -47 \/ e = -46 \/ e = -45 \/
  e = -44 ->
  (e = -44 -> Zpos m < 6333186975989760) ->
  0 <= Zpos m * 2 ^ (e + 50) / (30 * 2 ^ 50) <= 11.
Proof.
  intros Hm He H360.
  exponent_cases He; eval_pow50; try specialize (H360 eq_refl); lia.
Qed.

Lemma sector_of_normal (L : float) m e k :
  Prim2SF L = S754_finite false m e ->
  4503599627370496 <= Z.pos m < 9007199254740992 ->
  e = -50 \/ e = -49 \/ e = -48 \/ e = -47 \/ e = -46 \/ e = -45 \/
  e = -44 ->
  signIndex_of L = SF2Prim (binary_normalize prec emax k 0 false) ->
  k = Zpos m * 2 ^ (e + 50) / (30 * 2 ^ 50) ->
  0 <= k <= 11 ->
  exists k s, in_sector L k s.
Proof.
  intros Hx Hm He Hidx Hkm Hk.
  compare_with_longitude L. rewrite Hx in Hle, Hlt.
  exists (Z.to_nat k).
  assert (Hk' : k = 0 \/ k = 1 \/ k = 2 \/ k = 3 \/ k = 4 \/ k = 5 \/
                k = 6 \/ k = 7 \/ k = 8 \/ k = 9 \/ k = 10 \/ k = 11) by lia.
  clear Hk. unfold in_sector. fold (signIndex_of L).
  destruct Hk' as [->|[->|[->|[->|[->|[->|[->|[->|[->|[->|[->| ->]]]]]]]]]]];
    (eexists; split; [simpl; lia|]; split; [reflexivity|];
     split; [rewrite Hidx; vm_compute; reflexivity|];
     split; [unfold signName_of; rewrite Hidx; vm_compute; reflexivity|];
     rewrite Hle, Hlt;
     exponent_cases He; revert Hkm; eval_pow50; intros Hkm;
     (split; eval_const; rewrite ?SFleb_pos, ?SFltb_pos;
      cbn [Z.compare Pos.compare Pos.compare_cont Z.opp CompOpp SFleb
             SFcompare];
      decide_cmp)).
Qed.

Lemma sector_of_longitude (L : float) :
  (0 <=? L)%float = true -> (L <? 360)%float = true ->
  exists k s, in_sector L k s.
Proof.
  intros H0 H360.
  rewrite leb_spec in H0. rewrite ltb_spec, Prim2SF_360 in H360.
  pose proof (Prim2SF_valid L) as Hv.
  destruct (Prim2SF L) as [sgn|sgn| |sgn m e] eqn:Hx.
  - exact (sector_of_zero L sgn Hx).
  - destruct sgn; discriminate.
  - discriminate.
  - destruct sgn; [discriminate|].
    destruct (Z_le_gt_dec e (-51)) as [Hsmall|Hbig];
      [exact (sector_of_small L m e Hx Hsmall)|].
    pose proof (bounded_digits m e Hv) as (_ & _ & Hnorm).
    apply below_360 in H360. destruct H360 as [He H360].
    specialize (Hnorm ltac:(lia)).
    pose proof (digits2_pos_bounds m) as Hm. rewrite Hnorm in Hm. pow2.
    assert (He' : e = -50 \/ e = -49 \/ e = -48 \/ e = -47 \/ e = -46 \/
                  e = -45 \/ e = -44) by lia.
    pose proof (signIndex_of_spec L) as Hidx.
    rewrite Hx, (floor_div30_normal m e Hnorm ltac:(lia)) in Hidx.
    exact (sector_of_normal L m e _ Hx Hm He' Hidx eq_refl
             (index_bound m e Hm He' H360)).
Qed.

(** C3.  A longitude [L] with [0 <= L < 360] is assigned the sign at index
    [Math.floor(L / 30)] of the table, and that sign's thirty degrees hold
    it: [start <= L < start + 30], the lower end included.  At the
    boundaries: 0 is in the first sign, 30 in the second and not in the
    first, and 359.999 (its nearest double) in the last. *)
Theorem sector_contains_longitude :
  (forall L : float,
      (0 <=? L)%float = true -> (L <? 360)%float = true ->
      exists (k : nat) (s : Sign),
        (k < 12)%nat /\
        nth_error ZODIAC_SIGNS k = Some s /\
        Js.get ZODIAC_SIGNS (Js.floor (L / 30)) = Some s /\
        signName_of L = sign_name s /\
        (start s <=? L)%float = true /\
        (L <? start s + 30)%float = true)
  /\ signName_of 0 = "Aries"%string
  /\ signName_of 30 = "Taurus"%string
  /\ signName_of 0x1.67ffbe76c8b44p+8 = "Pisces"%string.
Proof.
  split; [exact sector_of_longitude|].
  vm_compute. repeat split; reflexivity.
Qed.

End Sectors.

(** ** The statements on concrete inputs *)

Section Runs.
Import NatalChart.
Local Open Scope float_scope.

Example sample_dob_fields :
  (dayjs.year Sample.UTC Sample.dob, dayjs.month Sample.UTC Sample.dob, dayjs.date Sample.UTC Sample.dob,
   dayjs.hour Sample.UTC Sample.dob, dayjs.minute Sample.UTC Sample.dob)
  = (1990, 5, 15, 9, 0)%Z.
Proof. reflexivity. Qed.

Example sample_tob_fields :
  (dayjs.hour Sample.UTC Sample.tob, dayjs.minute Sample.UTC Sample.tob, dayjs.second Sample.UTC Sample.tob,
   dayjs.millisecond Sample.UTC Sample.tob,
   dayjs.hour Sample.UTC Sample.tob_later, dayjs.minute Sample.UTC Sample.tob_later,
   dayjs.second Sample.UTC Sample.tob_later, dayjs.millisecond Sample.UTC Sample.tob_later)
  = (14, 30, 0, 0, 14, 30, 1, 250)%Z.
Proof. reflexivity. Qed.

Example sample_dateObj_fields :
  let T := toDate (dateObj Sample.UTC Sample.dob Sample.tob_later) in
  (Date.getFullYear Sample.UTC T, Date.getMonth Sample.UTC T,
   Date.getDate Sample.UTC T, Date.getHours Sample.UTC T,
   Date.getMinutes Sample.UTC T, Date.getSeconds Sample.UTC T,
   Date.getMilliseconds Sample.UTC T)
  = (1990, 5, 15, 14, 30, 0, 0)%Z.
Proof. reflexivity. Qed.

Example sample_positions :
  exists ps,
    planetaryPositions Sample.atan2 Sample.UTC Sample.still_sky
      Sample.dob Sample.tob = Ok ps
    /\ map degree ps = [0; 0; 0; 0; 0; 0; 0]
    /\ map sign ps
       = ["Aries"; "Aries"; "Aries"; "Aries"; "Aries"; "Aries"; "Aries"]
         %string.
Proof. eexists. vm_compute. repeat split; reflexivity. Qed.

(** C2, at an input where the code leaves the range.  An angle a hair
    below zero (here the double nearest to -1e-20 radians) is negative in
    degrees, and adding 360 to it rounds to 360 exactly: the longitude is
    360, not below 360, its index is 12 and its sign the empty string.  A
    provider that puts the bodies there makes the projector return a degree
    of 360 for each of them. *)
Theorem tiny_negative_angle_gives_360 :
  let angle := -0x1.79ca10c924223p-67 in
  (angle * (180 / Js.PI) <? 0) = true /\
  longitude_of angle = 360 /\
  (longitude_of angle <? 360) = false /\
  signIndex_of (longitude_of angle) = 12 /\
  signName_of (longitude_of angle) = EmptyString /\
  exists ps,
    planetaryPositions Sample.atan2 Sample.UTC Sample.hair_below_axis
      Sample.dob Sample.tob = Ok ps
    /\ map degree ps = [360; 360; 360; 360; 360; 360; 360]
    /\ map sign ps = [""; ""; ""; ""; ""; ""; ""]%string.
Proof.
  cbv zeta. repeat split; try (vm_compute; reflexivity).
  eexists. vm_compute. repeat split; reflexivity.
Qed.

Lemma Mars_in_table :
  In {| name := "Mars"; key := Mars; symbol := "♂"; color := "#EF5350" |}
    PLANETS.
Proof. simpl. tauto. Qed.

(** C1 as the claim words it fails: with a provider that throws for Mars
    and answers for the other six bodies, the projector returns no
    position, whatever the birth moment. *)
Lemma one_failing_body_aborts_all :
  exists gv : Body -> Z -> bool -> result Vector,
    (forall b t a, b <> Mars -> exists v, gv b t a = Ok v) /\
    (forall atan2 zone dob tob ps,
        planetaryPositions atan2 zone gv dob tob <> Ok ps) /\
    planetaryPositions Sample.atan2 Sample.UTC gv Sample.dob Sample.tob
    = Throw "Invalid body".
Proof.
  exists Sample.no_mars. split; [|split].
  - intros b t a Hb. destruct b; try (eexists; reflexivity). congruence.
  - intros atan2 zone dob tob ps H. unfold planetaryPositions in H.
    destruct (array_map_throws
                (position_of atan2 Sample.no_mars
                   (toDate (dateObj zone dob tob)))
                PLANETS _ "Invalid body" Mars_in_table eq_refl)
      as [msg Hm].
    congruence.
  - vm_compute. reflexivity.
Qed.

Lemma provider_failure_aborts_projection_witness :
  Sample.no_mars Mars
    (toDate
       (dateObj Sample.UTC Sample.dob Sample.tob)) true
  = Throw "Invalid body"
  /\ exists msg,
      planetaryPositions Sample.atan2 Sample.UTC Sample.no_mars
        Sample.dob Sample.tob = Throw msg.
Proof.
  split; [reflexivity|].
  exact (provider_failure_aborts_projection Sample.atan2 Sample.UTC
           Sample.no_mars Sample.dob Sample.tob _ "Invalid body"
           Mars_in_table eq_refl).
Defined.

(** C7 as the claim words it fails where a daylight-saving change skips
    the birth time.  On a machine on Eastern time, with the birth date
    2024-03-10 and the birth time 02:30, [hour(2)] builds 02:00 of that
    day, which the engine moves on to 03:00: the [Date] given to the
    provider reads 03:30, not 02:30. *)
Lemma skipped_hour_moves_the_timestamp :
  let zone := Sample.eastern in
  let T := toDate (dateObj zone Sample.dob_change_day Sample.tob_0230) in
  (dayjs.year zone Sample.dob_change_day,
   dayjs.month zone Sample.dob_change_day,
   dayjs.date zone Sample.dob_change_day,
   dayjs.hour zone Sample.tob_0230,
   dayjs.minute zone Sample.tob_0230) = (2024, 2, 10, 2, 30)%Z /\
  (Date.getFullYear zone T, Date.getMonth zone T, Date.getDate zone T,
   Date.getHours zone T, Date.getMinutes zone T, Date.getSeconds zone T)
  = (2024, 2, 10, 3, 30, 0)%Z /\
  Date.getHours zone T <> dayjs.hour zone Sample.tob_0230 /\
  (forall atan2,
      planetaryPositions atan2 zone
        (fun b t a => if (t =? 1710055800000)%Z
                      then Sample.still_sky b t a
                      else Throw "another date")
        Sample.dob_change_day Sample.tob_0230
      = planetaryPositions atan2 zone Sample.still_sky
          Sample.dob_change_day Sample.tob_0230).
Proof.
  cbv zeta. split; [vm_compute; reflexivity|].
  split; [vm_compute; reflexivity|].
  split; [vm_compute; discriminate|].
  intros atan2. reflexivity.
Qed.

(** The same machine and date with a birth time of 09:30, an hour that
    exists. *)
Lemma combined_timestamp_fields_witness :
  let zone := Sample.eastern in
  let T := toDate (dateObj zone Sample.dob_change_day Sample.tob) in
  Date.hour_exists zone
    (Date.Day (LocalTime zone (tv Sample.dob_change_day)))
    (dayjs.hour zone Sample.tob) /\
  (Date.getFullYear zone T, Date.getMonth zone T, Date.getDate zone T,
   Date.getHours zone T, Date.getMinutes zone T, Date.getSeconds zone T)
  = (dayjs.year zone Sample.dob_change_day,
     dayjs.month zone Sample.dob_change_day,
     dayjs.date zone Sample.dob_change_day,
     dayjs.hour zone Sample.tob, dayjs.minute zone Sample.tob, 0%Z).
Proof.
  cbv zeta.
  assert (Hex : Date.hour_exists Sample.eastern
                  (Date.Day (LocalTime Sample.eastern
                               (tv Sample.dob_change_day)))
                  (dayjs.hour Sample.eastern Sample.tob)).
  { replace (Date.Day (LocalTime Sample.eastern (tv Sample.dob_change_day)))
      with 19792%Z by (vm_compute; reflexivity).
    replace (dayjs.hour Sample.eastern Sample.tob) with 9%Z
      by (vm_compute; reflexivity).
    intros t Hd Hh.
    unfold Date.Day, Date.HourFromTime, Date.msPerDay, Date.msPerHour in *.
    cbn [LocalTime UTC Sample.eastern].
    destruct (Z.ltb_spec t 1710039600000); [lia|].
    destruct (Z.ltb_spec (t + 14400000) 1710054000000); lia. }
  split; [exact Hex|].
  destruct (combined_timestamp_fields Sample.eastern Sample.dob_change_day
              Sample.tob Hex) as (_ & H1 & H2 & H3 & H4 & H5 & H6).
  rewrite H1, H2, H3, H4, H5, H6. reflexivity.
Defined.

Lemma sector_contains_longitude_witness :
  (0 <=? 30) = true /\ (30 <? 360) = true /\
  exists (k : nat) (s : Sign),
    (k < 12)%nat /\
    nth_error ZODIAC_SIGNS k = Some s /\
    Js.get ZODIAC_SIGNS (Js.floor (30 / 30)) = Some s /\
    signName_of 30 = sign_name s /\
    (start s <=? 30) = true /\
    (30 <? start s + 30) = true.
Proof.
  split; [reflexivity|]. split; [reflexivity|].
  exact (proj1 sector_contains_longitude 30 eq_refl eq_refl).
Defined.

Lemma sign_outside_table_is_empty_witness :
  (0 <=? signIndex_of 360) && (signIndex_of 360 <=? 11) = false
  /\ signName_of 360 = EmptyString.
Proof.
  split; [vm_compute; reflexivity|].
  exact (proj1 (proj2 (sign_outside_table_is_empty 360 eq_refl))).
Defined.

Lemma positions_read_hour_and_minute_only_witness :
  dayjs.hour Sample.UTC Sample.tob = dayjs.hour Sample.UTC Sample.tob_later
  /\ dayjs.minute Sample.UTC Sample.tob = dayjs.minute Sample.UTC Sample.tob_later
  /\ dayjs.second Sample.UTC Sample.tob <> dayjs.second Sample.UTC Sample.tob_later
  /\ planetaryPositions Sample.atan2 Sample.UTC Sample.still_sky
       Sample.dob Sample.tob
     = planetaryPositions Sample.atan2 Sample.UTC Sample.still_sky
         Sample.dob Sample.tob_later.
Proof.
  split; [reflexivity|]. split; [reflexivity|]. split; [discriminate|].
  exact (positions_read_hour_and_minute_only Sample.atan2 Sample.UTC
           Sample.still_sky Sample.dob Sample.tob Sample.tob_later
           eq_refl eq_refl).
Defined.


End Runs.

(** * Further properties *)

(** ** The submit handler *)

Section Submission.
Import App.

Variable atan2 : float -> float -> float.
Variable zone : Zone.
Variable GeoVector : Body -> Z -> bool -> result Vector.

Lemma truthy_nonempty v :
  truthy v = true -> exists c r, v = Some (String c r).
Proof.
  destruct v as [[|c r]|]; try discriminate. intros _. eauto.
Qed.

Lemma positions_when_provider_answers dob tob :
  (forall b, exists v,
      GeoVector b (NatalChart.toDate
             (NatalChart.dateObj zone dob tob)) true
      = Ok v) ->
  exists ps, NatalChart.planetaryPositions atan2 zone GeoVector dob tob = Ok ps.
Proof.
  intros Hgv. unfold NatalChart.planetaryPositions.
  apply array_map_answers. intros p _.
  destruct (Hgv (key p)) as [v Hv]. exists (NatalChart.position_at atan2 p v).
  apply position_of_answer. exact Hv.
Qed.

(** What every submission leaves for the render: the loading flag off,
    the submitted chart data, and a reading or else the error. *)
Lemma handleFinish_state values reply s :
  let s' := fst (handleFinish values reply s) in
  st_loading s' = false /\
  st_chartData s'
  = Some {| dob := form_dob values; tob := form_tob values |} /\
  ((exists c r, st_result s' = Some (String c r)) \/
   (st_result s' = None /\ st_error s' = Some API_ERROR)).
Proof.
  cbv zeta.
  unfold handleFinish, after_await, handle_response, before_await.
  destruct reply as [[[[[|c r]|]]|]|msg]; simpl;
    (split; [reflexivity|]); (split; [reflexivity|]);
    try (right; split; reflexivity).
  left. eauto.
Qed.

(** X1.  However the request ends and whatever an earlier submission left
    in the state, a submission ends with the loading flag off, the chart
    data set to the submitted date and time, and exactly one of reading and
    error: the reading when the reply carries a non-empty [result], the
    fixed error text in every other case (exception, empty body, missing
    or empty [result]).  The success toast goes with the reading. *)
Theorem submission_settles :
  forall (values : FormValues) (reply : Reply) (s : State),
    let s' := fst (handleFinish values reply s) in
    let fx := snd (handleFinish values reply s) in
    st_loading s' = false /\
    st_chartData s'
    = Some {| dob := form_dob values; tob := form_tob values |} /\
    ((exists text,
         reply = Ok (Some {| api_result := Some text |}) /\
         text <> EmptyString /\
         st_result s' = Some text /\ st_error s' = None /\
         fx = [MessageSuccess])
     \/
     ((forall text, reply = Ok (Some {| api_result := Some text |}) ->
                    text = EmptyString) /\
      st_result s' = None /\ st_error s' = Some API_ERROR /\
      exists err, fx = [ConsoleError err])).
Proof.
  intros values reply s. cbv zeta.
  unfold handleFinish, after_await, handle_response, before_await.
  destruct reply as [[[[[|c r]|]]|]|msg]; simpl;
    (split; [reflexivity|]); (split; [reflexivity|]).
  - right. repeat split; eauto. intros text [= <-]. reflexivity.
  - left. exists (String c r). repeat split. discriminate.
  - right. repeat split; eauto. intros text [=].
  - right. repeat split; eauto. intros text [=].
  - right. repeat split; eauto. intros text [=].
Qed.

(** X2.  While the request is pending the state is the same whatever it
    was before: loading, no reading, no error, and the chart data of this
    submission.  A reading or an error of an earlier submission is never
    shown beside the new chart. *)
Theorem pending_state_is_fresh :
  forall (values : FormValues) (s1 s2 : State),
    before_await values s1 = before_await values s2 /\
    view atan2 zone GeoVector (before_await values s1)
    = (ps <- NatalChart.planetaryPositions atan2 zone GeoVector
               (form_dob values) (form_tob values) ;;
       Ok {| button_label := "Consulting the Stars...";
             error_banner := None;
             results_area := true;
             chart := Some ps;
             reading := None |}).
Proof.
  intros values s1 s2. split; [reflexivity|].
  unfold view, before_await. simpl.
  destruct (NatalChart.planetaryPositions atan2 zone GeoVector
              (form_dob values) (form_tob values)); reflexivity.
Qed.

(** X3.  The chart does not depend on the request: after a submission,
    whatever the endpoint replied, the render shows the positions of the
    submitted date and time when the ephemeris provider answers for every
    body, also beside the error banner. *)
Theorem chart_shown_whatever_the_reply :
  forall (values : FormValues) (reply : Reply) (s : State),
    (forall b, exists v,
        GeoVector b
          (NatalChart.toDate
             (NatalChart.dateObj zone (form_dob values) (form_tob values)))
          true = Ok v) ->
    exists ps v,
      NatalChart.planetaryPositions atan2 zone GeoVector
        (form_dob values) (form_tob values) = Ok ps /\
      view atan2 zone GeoVector (fst (handleFinish values reply s)) = Ok v /\
      chart v = Some ps /\ results_area v = true /\
      button_label v = "Reveal My Destiny"%string /\
      (reading v = None -> error_banner v = Some API_ERROR).
Proof.
  intros values reply s Hgv.
  destruct (positions_when_provider_answers _ _ Hgv) as [ps Hps].
  destruct (handleFinish_state values reply s) as (Hl & Hc & Hcase).
  exists ps. unfold view. rewrite Hl, Hc. cbv beta iota.
  rewrite orb_true_r. cbv beta iota.
  change (dob {| dob := form_dob values; tob := form_tob values |})
    with (form_dob values).
  change (tob {| dob := form_dob values; tob := form_tob values |})
    with (form_tob values).
  rewrite Hps. simpl bind. eexists. split; [reflexivity|].
  split; [reflexivity|]. simpl.
  split; [reflexivity|]. split; [reflexivity|]. split; [reflexivity|].
  destruct Hcase as [(c & r & Hr) | (Hr & He)].
  - rewrite Hr. discriminate.
  - rewrite Hr, He. reflexivity.
Qed.

(** X4.  The [try] of the handler does not cover the chart: when the
    provider throws for a body at the submitted date and time, the render
    made while the request is pending throws, whatever the state was
    before the submission; the handler has recorded no error then, its
    [catch] being for the request only. *)
Theorem chart_failure_escapes_the_handler :
  forall (values : FormValues) (s : State) (p : Planet) (msg : string),
    In p PLANETS ->
    GeoVector (key p)
      (NatalChart.toDate
         (NatalChart.dateObj zone (form_dob values) (form_tob values)))
      true = Throw msg ->
    st_loading (before_await values s) = true /\
    st_error (before_await values s) = None /\
    exists msg',
      view atan2 zone GeoVector (before_await values s) = Throw msg'.
Proof.
  intros values s p msg Hin Hthrow.
  destruct (array_map_throws
              (NatalChart.position_of atan2 GeoVector
                 (NatalChart.toDate
                    (NatalChart.dateObj zone (form_dob values)
                       (form_tob values))))
              PLANETS p msg Hin (position_of_throw _ _ _ _ _ Hthrow))
    as [msg' Hm].
  split; [reflexivity|]. split; [reflexivity|].
  exists msg'. unfold view, before_await. simpl st_chartData.
  cbv beta iota. rewrite orb_true_r. cbv beta iota.
  change (dob {| dob := form_dob values; tob := form_tob values |})
    with (form_dob values).
  change (tob {| dob := form_dob values; tob := form_tob values |})
    with (form_tob values).
  unfold NatalChart.planetaryPositions. rewrite Hm. reflexivity.
Qed.

End Submission.

(** ** Which exception surfaces *)

Lemma array_map_first_throw {A B : Type} (f : A -> result B) pre a post msg :
  (forall b, In b pre -> exists v, f b = Ok v) ->
  f a = Throw msg ->
  array_map f (pre ++ a :: post) = Throw msg.
Proof.
  induction pre as [|b pre IH]; intros Hpre Ha; simpl.
  - rewrite Ha. reflexivity.
  - destruct (Hpre b (or_introl eq_refl)) as [v ->]. simpl.
    rewrite IH; [reflexivity| |exact Ha].
    intros c Hc. apply Hpre. right. exact Hc.
Qed.

Section FirstFailure.
Import NatalChart.

Variable atan2 : float -> float -> float.
Variable zone : Zone.

(** X5.  The bodies are looked up in table order and the first exception
    ends the loop: when the provider answers for the rows before [p] and
    throws for [p], the projector throws that very exception, whatever the
    provider would do for the rows after [p]. *)
Theorem first_failing_body_decides :
  forall (gv : Body -> Z -> bool -> result Vector) (dob tob : Dayjs)
         (before after : list Planet) (p : Planet) (msg : string),
    PLANETS = before ++ p :: after ->
    (forall q, In q before ->
       exists v, gv (key q) (toDate (dateObj zone dob tob)) true = Ok v) ->
    gv (key p) (toDate (dateObj zone dob tob)) true = Throw msg ->
    planetaryPositions atan2 zone gv dob tob = Throw msg.
Proof.
  intros gv dob tob before after p msg Htable Hbefore Hp.
  unfold planetaryPositions. rewrite Htable.
  apply array_map_first_throw.
  - intros q Hq. destruct (Hbefore q Hq) as [v Hv].
    exists (position_at atan2 q v). apply position_of_answer. exact Hv.
  - apply position_of_throw. exact Hp.
Qed.

End FirstFailure.

(** ** From the sector to the sign *)

Section Converse.
Import NatalChart Double Div30.

Ltac decode_const :=
  match goal with
  | |- context [Prim2SF ?c] =>
      let v := eval vm_compute in (Prim2SF c) in
      replace (Prim2SF c) with v by (vm_compute; reflexivity)
  end.

Lemma SFltb_leb_trans m e ma ea mb eb :
  SFltb (S754_finite false m e) (S754_finite false ma ea) = true ->
  SFleb (S754_finite false mb eb) (S754_finite false m e) = true ->
  SFltb (S754_finite false mb eb) (S754_finite false ma ea) = true.
Proof.
  rewrite !SFltb_pos, SFleb_pos.
  destruct (Z.compare_spec e ea), (Z.compare_spec eb e), (Z.compare_spec eb ea);
    try discriminate; try reflexivity; try lia; subst.
  all: intros H1 H2; apply Z.ltb_lt in H1; apply Z.leb_le in H2;
    apply Z.ltb_lt; lia.
Qed.

Lemma sector_unique (L : float) (k k' : nat) (s s' : Sign) :
  nth_error ZODIAC_SIGNS k = Some s ->
  nth_error ZODIAC_SIGNS k' = Some s' ->
  (start s <=? L)%float = true -> (L <? start s + 30)%float = true ->
  (start s' <=? L)%float = true -> (L <? start s' + 30)%float = true ->
  k = k'.
Proof.
  intros Hk Hk' H1 H2 H3 H4.
  rewrite leb_spec in H1, H3. rewrite ltb_spec in H2, H4.
  assert (Hlt : (k < 12)%nat).
  { change 12%nat with (List.length ZODIAC_SIGNS).
    apply nth_error_Some. rewrite Hk. discriminate. }
  assert (Hlt' : (k' < 12)%nat).
  { change 12%nat with (List.length ZODIAC_SIGNS).
    apply nth_error_Some. rewrite Hk'. discriminate. }
  destruct (Prim2SF L) as [sg|sg| |sg m e] eqn:Hx.
  - (* zero *)
    do 12 (try (destruct k as [|k]; [injection Hk as <-|])); try lia;
    do 12 (try (destruct k' as [|k']; [injection Hk' as <-|])); try lia;
    try reflexivity; exfalso;
    try (revert H1; simpl start; decode_const; discriminate);
    try (revert H3; simpl start; decode_const; discriminate).
  - exfalso. revert H2. 
    do 12 (try (destruct k as [|k]; [injection Hk as <-|])); try lia;
      simpl start; decode_const; destruct sg; discriminate.
  - discriminate.
  - destruct sg.
    + exfalso. revert H1.
      do 12 (try (destruct k as [|k]; [injection Hk as <-|])); try lia;
        simpl start; decode_const; discriminate.
    + destruct (Nat.lt_trichotomy k k') as [Hc|[Hc|Hc]]; [|exact Hc|]; exfalso.
      * (* k < k': L < start s + 30 <= start s' <= L *)
        clear H1 H4. revert H2 H3.
        do 12 (try (destruct k as [|k]; [injection Hk as <-|])); try lia;
        do 12 (try (destruct k' as [|k']; [injection Hk' as <-|])); try lia;
        simpl start;
        repeat decode_const; intros H2 H3;
        pose proof (SFltb_leb_trans _ _ _ _ _ _ H2 H3) as H;
        vm_compute in H; discriminate.
      * clear H2 H3. revert H4 H1.
        do 12 (try (destruct k as [|k]; [injection Hk as <-|])); try lia;
        do 12 (try (destruct k' as [|k']; [injection Hk' as <-|])); try lia;
        simpl start;
        repeat decode_const; intros H2 H3;
        pose proof (SFltb_leb_trans _ _ _ _ _ _ H2 H3) as H;
        vm_compute in H; discriminate.
Qed.

Lemma SFltb_trans_le m e ma ea mb eb :
  SFltb (S754_finite false m e) (S754_finite false ma ea) = true ->
  SFleb (S754_finite false ma ea) (S754_finite false mb eb) = true ->
  SFltb (S754_finite false m e) (S754_finite false mb eb) = true.
Proof.
  rewrite !SFltb_pos, SFleb_pos.
  destruct (Z.compare_spec e ea), (Z.compare_spec ea eb), (Z.compare_spec e eb);
    try discriminate; try reflexivity; try lia; subst.
  all: intros H1 H2; apply Z.ltb_lt in H1; apply Z.leb_le in H2;
    apply Z.ltb_lt; lia.
Qed.

Lemma sector_within_circle (L : float) (k : nat) (s : Sign) :
  nth_error ZODIAC_SIGNS k = Some s ->
  (start s <=? L)%float = true -> (L <? start s + 30)%float = true ->
  (0 <=? L)%float = true /\ (L <? 360)%float = true.
Proof.
  intros Hk H1 H2.
  assert (Hlt : (k < 12)%nat).
  { change 12%nat with (List.length ZODIAC_SIGNS).
    apply nth_error_Some. rewrite Hk. discriminate. }
  rewrite leb_spec in *. rewrite ltb_spec in *. rewrite Prim2SF_360.
  change (Prim2SF 0) with (S754_zero false).
  destruct (Prim2SF L) as [sg|sg| |sg m e] eqn:Hx.
  - split; reflexivity.
  - exfalso. revert H2.
    do 12 (try (destruct k as [|k]; [injection Hk as <-|])); try lia;
      simpl start; decode_const; destruct sg; discriminate.
  - discriminate.
  - destruct sg.
    + exfalso. revert H1.
      do 12 (try (destruct k as [|k]; [injection Hk as <-|])); try lia;
        simpl start; decode_const; discriminate.
    + split; [reflexivity|]. clear H1. revert H2.
      do 12 (try (destruct k as [|k]; [injection Hk as <-|])); try lia;
        simpl start; decode_const; intros H2;
        first [ exact H2
              | refine (SFltb_trans_le _ _ _ _ _ _ H2 _); vm_compute;
                reflexivity ].
Qed.

(** X6.  The classification finds the sector: a longitude that lies in the
    thirty degrees starting at the [start] of a row of the table is given
    that row and its name.  The sectors do not overlap, so the row is the
    only one. *)
Theorem longitude_in_sector_gets_its_sign :
  forall (L : float) (k : nat) (s : Sign),
    nth_error ZODIAC_SIGNS k = Some s ->
    (start s <=? L)%float = true -> (L <? start s + 30)%float = true ->
    Js.get ZODIAC_SIGNS (Js.floor (L / 30)) = Some s /\
    signName_of L = sign_name s.
Proof.
  intros L k s Hk H1 H2.
  destruct (sector_within_circle L k s Hk H1 H2) as [H0 H360].
  destruct (sector_of_longitude L H0 H360)
    as (k' & s' & _ & Hk' & Hget & Hname & H3 & H4).
  assert (k = k') by exact (sector_unique L k k' s s' Hk Hk' H1 H2 H3 H4).
  subst k'. assert (s' = s) by congruence. subst s'.
  split; assumption.
Qed.

End Converse.

(** ** Rounding never passes a double *)

Module RoundingFacts.
Import Double Div30 Rounding.

(** One step of [shr] halves the mantissa. *)
Lemma shr_1_m mrs : 0 <= shr_m mrs -> shr_m (shr_1 mrs) = shr_m mrs / 2.
Proof.
  destruct mrs as [m r s]. simpl shr_m at 1 3.
  destruct m as [|[p|p|]|p]; intros H; try lia; cbn [shr_1 shr_m];
    try reflexivity.
  - change (Zpos p~1) with (2 * Zpos p + 1). lia.
  - change (Zpos p~0) with (2 * Zpos p). lia.
Qed.

Lemma iter_shr_1_m p : forall mrs,
  0 <= shr_m mrs ->
  0 <= shr_m (iter_pos shr_1 p mrs) /\
  shr_m (iter_pos shr_1 p mrs) = shr_m mrs / 2 ^ Zpos p.
Proof.
  assert (Hhalf : forall mrs, 0 <= shr_m mrs -> 0 <= shr_m (shr_1 mrs)).
  { intros mrs H. rewrite shr_1_m by exact H. apply Z.div_pos; lia. }
  induction p as [p IH|p IH|]; intros mrs H; simpl iter_pos.
  - destruct (IH (shr_1 mrs) (Hhalf _ H)) as [H1 E1].
    destruct (IH _ H1) as [H2 E2]. split; [exact H2|].
    rewrite E2, E1, shr_1_m by exact H.
    rewrite !Z.div_div by (try apply Z.pow_pos_nonneg; lia).
    f_equal. rewrite <- Z.pow_add_r by lia.
    change 2 with (2 ^ 1) at 1. rewrite <- Z.pow_add_r by lia.
    f_equal. lia.
  - destruct (IH mrs H) as [H1 E1].
    destruct (IH _ H1) as [H2 E2]. split; [exact H2|].
    rewrite E2, E1.
    rewrite !Z.div_div by (try apply Z.pow_pos_nonneg; lia).
    f_equal. rewrite <- Z.pow_add_r by lia. f_equal. lia.
  - split; [apply Hhalf, H|]. rewrite shr_1_m by exact H. reflexivity.
Qed.

(** The first step of [binary_round_aux]: the mantissa is cut down to the
    exponent of the format. *)
Lemma shr_fexp_m m e l :
  0 <= m -> e <= fexp prec emax (Zdigits2 m + e) ->
  snd (shr_fexp prec emax m e l) = fexp prec emax (Zdigits2 m + e) /\
  shr_m (fst (shr_fexp prec emax m e l))
  = m / 2 ^ (fexp prec emax (Zdigits2 m + e) - e).
Proof.
  intros Hm He. unfold shr_fexp, shr.
  destruct (fexp prec emax (Zdigits2 m + e) - e) as [|p|p] eqn:Hn;
    cbn [fst snd]; try lia.
  - rewrite shr_m_of_loc, Z.div_1_r. split; [lia|reflexivity].
  - split; [lia|].
    pose proof (iter_shr_1_m p (shr_record_of_loc m l)) as H.
    rewrite shr_m_of_loc in H. destruct (H Hm) as [_ ->]. reflexivity.
Qed.

(** The quotient has at most 53 digits, and exactly 53 above the
    subnormal range. *)
Lemma cut_range m e :
  0 <= m -> e <= fexp prec emax (Zdigits2 m + e) ->
  let E := fexp prec emax (Zdigits2 m + e) in
  let q := m / 2 ^ (E - e) in
  -1074 <= E /\ 0 <= q < 2 ^ 53 /\ (-1074 < E -> 2 ^ 52 <= q).
Proof.
  intros Hm He. cbv zeta. rewrite fexp_eq in *.
  remember (Zdigits2 m) as d eqn:Hdd.
  remember (Z.max (d + e - 53) (-1074)) as E eqn:HE.
  remember (E - e) as n eqn:Hnn.
  assert (Hn : 0 <= n) by lia.
  assert (Hpos : 0 < 2 ^ n) by (apply Z.pow_pos_nonneg; lia).
  assert (Hd : 0 <= d /\ (0 < m -> 2 ^ (d - 1) <= m) /\ m < 2 ^ d).
  { subst d. destruct m as [|p|p]; cbn [Zdigits2]; try lia.
    pose proof (digits2_pos_bounds p). repeat split; lia. }
  destruct Hd as (Hd0 & Hlo & Hhi).
  split; [lia|]. split; [split|].
  - apply Z.div_pos; lia.
  - apply Z.div_lt_upper_bound; [lia|].
    rewrite <- Z.pow_add_r by lia.
    assert (2 ^ d <= 2 ^ (n + 53)) by (apply Z.pow_le_mono_r; lia). lia.
  - intros HE'. assert (0 < m).
    { destruct (Z.eq_dec m 0) as [->|]; [|lia]. simpl in Hdd. lia. }
    apply Z.div_le_lower_bound; [lia|].
    rewrite <- Z.pow_add_r by lia.
    replace (n + 52) with (d - 1) by lia. auto.
Qed.

(** The second cut of [binary_round_aux], after rounding: a mantissa of
    at most [2^53] is kept, or halved once when rounding carried. *)
Lemma renormalize_pack Q E :
  0 <= Q <= 2 ^ 53 -> -1074 <= E ->
  (let '(mrs, e'') := shr_fexp prec emax Q E loc_Exact in
   match shr_m mrs with
   | Z0 => S754_zero false
   | Zpos m =>
       if e'' <=? emax - prec then S754_finite false m e''
       else S754_infinity false
   | Zneg _ => S754_nan
   end)
  = pack Q E.
Proof.
  intros HQ HE. unfold pack.
  destruct (Z.eqb_spec Q 0) as [->|Hne].
  - unfold shr_fexp. change (Zdigits2 0) with 0. rewrite fexp_eq.
    destruct (Z.max (0 + E - 53) (-1074) - E) as [|p|p] eqn:Hn; try lia;
      reflexivity.
  - destruct (Z.ltb_spec Q (2 ^ 53)) as [Hlt|Hge].
    + destruct Q as [|q|q]; try lia.
      pose proof (digits2_pos_bounds q) as [Hlo _].
      assert (Hd : Zpos (digits2_pos q) <= 53).
      { destruct (Z_le_gt_dec (Zpos (digits2_pos q)) 53); trivial.
        assert (2 ^ 53 <= 2 ^ (Zpos (digits2_pos q) - 1))
          by (apply Z.pow_le_mono_r; lia). lia. }
      unfold shr_fexp. change (Zdigits2 (Zpos q)) with (Zpos (digits2_pos q)).
      rewrite fexp_eq.
      destruct (Z.max (Zpos (digits2_pos q) + E - 53) (-1074) - E)
        as [|p|p] eqn:Hn; try lia; reflexivity.
    + assert (Q = 2 ^ 53) by lia. subst Q.
      unfold shr_fexp. change (Zdigits2 (2 ^ 53)) with 54.
      rewrite fexp_eq.
      replace (Z.max (54 + E - 53) (-1074) - E) with 1 by lia.
      reflexivity.
Qed.

(** [binary_round_aux] on a mantissa at or below the exponent of the
    format: the mantissa is cut down to that exponent, moved up by at most
    one, and packed. *)
Lemma round_aux_pack mx ex lx :
  0 <= mx -> ex <= fexp prec emax (Zdigits2 mx + ex) ->
  exists m2,
    mx / 2 ^ (fexp prec emax (Zdigits2 mx + ex) - ex) <= m2
    <= mx / 2 ^ (fexp prec emax (Zdigits2 mx + ex) - ex) + 1 /\
    binary_round_aux prec emax false mx ex lx
    = pack m2 (fexp prec emax (Zdigits2 mx + ex)).
Proof.
  intros Hm He.
  destruct (shr_fexp_m mx ex lx Hm He) as [He' Hq].
  destruct (cut_range mx ex Hm He) as (HE & Hqr & _).
  unfold binary_round_aux.
  destruct (shr_fexp prec emax mx ex lx) as [mrs' e']. cbn [fst snd] in *.
  subst e'.
  pose proof (round_nearest_even_range (shr_m mrs') (loc_of_shr_record mrs'))
    as Hr.
  set (m2 := round_nearest_even (shr_m mrs') (loc_of_shr_record mrs')) in *.
  clearbody m2. rewrite Hq in Hr. exists m2. split; [exact Hr|].
  apply renormalize_pack; [|exact HE]. pow2. lia.
Qed.

(** What [bounded] says of a mantissa and exponent. *)
Lemma bounded_canon m e :
  bounded prec emax m e = true -> canon (Zpos m) e /\ e <= 971.
Proof.
  intros H. pose proof (bounded_digits m e H) as (Hd & He & Hn).
  unfold bounded in H. apply andb_prop in H. destruct H as [_ H].
  apply Z.leb_le in H. change (emax - prec) with 971 in H.
  pose proof (digits2_pos_bounds m) as [Hlo Hhi].
  assert (2 ^ Zpos (digits2_pos m) <= 2 ^ 53) by (apply Z.pow_le_mono_r; lia).
  repeat split; try lia.
  intros He'. rewrite (Hn He') in Hlo. exact Hlo.
Qed.

(** A full mantissa at a larger exponent is the larger value. *)
Lemma V_exp_lt m1 e1 m2 e2 :
  0 <= m1 < 2 ^ 53 -> -2200 <= e1 -> e1 < e2 -> 2 ^ 52 <= m2 ->
  V m1 e1 < V m2 e2.
Proof.
  intros H1 He1 Hlt H2. unfold V.
  assert (Hp : 0 < 2 ^ (e1 + 2200)) by (apply Z.pow_pos_nonneg; lia).
  assert (Hs : 2 * 2 ^ (e1 + 2200) <= 2 ^ (e2 + 2200)).
  { rewrite <- Z.pow_succ_r by lia. apply Z.pow_le_mono_r; lia. }
  change (2 ^ 53) with (2 * 2 ^ 52) in H1.
  assert (2 ^ 52 = 4503599627370496) by reflexivity.
  nia.
Qed.

(** Between doubles, values compare as exponents, then mantissas. *)
Lemma canon_lt m1 e1 m2 e2 :
  canon m1 e1 -> canon m2 e2 ->
  (V m1 e1 < V m2 e2 <-> e1 < e2 \/ (e1 = e2 /\ m1 < m2)).
Proof.
  intros (H1 & He1 & Hn1) (H2 & He2 & Hn2).
  assert (Hp : 0 < 2 ^ (e1 + 2200)) by (apply Z.pow_pos_nonneg; lia).
  destruct (Z.lt_trichotomy e1 e2) as [Hlt|[->|Hgt]].
  - split; [auto|]. intros _. apply V_exp_lt; try lia.
  - unfold V. split; [intros H; right; split; [reflexivity|nia]|].
    intros [H|[_ H]]; [lia|nia].
  - assert (V m2 e2 < V m1 e1) by (apply V_exp_lt; lia).
    split; [lia|]. intros [Hc|[Hc _]]; lia.
Qed.

Lemma canon_le m1 e1 m2 e2 :
  canon m1 e1 -> canon m2 e2 ->
  (V m1 e1 <= V m2 e2 <-> e1 < e2 \/ (e1 = e2 /\ m1 <= m2)).
Proof.
  intros (H1 & He1 & Hn1) (H2 & He2 & Hn2).
  assert (Hp : 0 < 2 ^ (e1 + 2200)) by (apply Z.pow_pos_nonneg; lia).
  destruct (Z.lt_trichotomy e1 e2) as [Hlt|[->|Hgt]].
  - split; [auto|]. intros _. apply Z.lt_le_incl, V_exp_lt; try lia.
  - unfold V. split; [intros H; right; split; [reflexivity|nia]|].
    intros [H|[_ H]]; [lia|nia].
  - assert (V m2 e2 < V m1 e1) by (apply V_exp_lt; lia).
    split; [lia|]. intros [Hc|[Hc _]]; lia.
Qed.

(** [SFleb] and [SFltb] between positive doubles compare the values. *)
Lemma SFleb_V m1 e1 m2 e2 :
  canon (Zpos m1) e1 -> canon (Zpos m2) e2 ->
  SFleb (S754_finite false m1 e1) (S754_finite false m2 e2) = true
  <-> V (Zpos m1) e1 <= V (Zpos m2) e2.
Proof.
  intros H1 H2. rewrite (canon_le _ _ _ _ H1 H2), SFleb_pos.
  destruct (Z.compare_spec e1 e2); split; try lia; try discriminate; auto.
Qed.

Lemma SFltb_V m1 e1 m2 e2 :
  canon (Zpos m1) e1 -> canon (Zpos m2) e2 ->
  SFltb (S754_finite false m1 e1) (S754_finite false m2 e2) = true
  <-> V (Zpos m1) e1 < V (Zpos m2) e2.
Proof.
  intros H1 H2. rewrite (canon_lt _ _ _ _ H1 H2), SFltb_pos.
  destruct (Z.compare_spec e1 e2); split; try lia; try discriminate; auto.
Qed.

(** Moving the exponent down by [n] multiplies the mantissa by [2^n]. *)
Lemma V_scale m e n :
  0 <= n -> -2200 <= e -> V m (e + n) = m * 2 ^ n * 2 ^ (e + 2200).
Proof.
  intros Hn He. unfold V.
  replace (e + n + 2200) with (n + (e + 2200)) by lia.
  rewrite Z.pow_add_r by lia. ring.
Qed.

(** A packed mantissa against a double [y]: the values decide. *)
Lemma pack_le m2 E my ey :
  0 <= m2 <= 2 ^ 53 -> -1074 <= E -> (-1074 < E -> 2 ^ 52 <= m2) ->
  bounded prec emax my ey = true ->
  V m2 E <= V (Zpos my) ey ->
  SFleb (pack m2 E) (S754_finite false my ey) = true.
Proof.
  intros Hm HE Hn Hy Hle.
  destruct (bounded_canon my ey Hy) as [Hcy Hey].
  unfold pack.
  destruct (Z.eqb_spec m2 0) as [->|Hne]; [reflexivity|].
  destruct (Z.ltb_spec m2 (2 ^ 53)) as [Hlt|Hge].
  - assert (Hc : canon m2 E) by (unfold canon; lia).
    assert (HE' : E <= 971).
    { destruct (Z_le_gt_dec E 971); trivial.
      destruct Hcy as (Hy1 & Hy2 & Hy3).
      assert (V (Zpos my) ey < V m2 E).
      { apply V_exp_lt; lia. }
      lia. }
    destruct (Z.leb_spec E 971); [|lia].
    destruct m2 as [|p|p]; try lia. cbn [Z.to_pos].
    apply SFleb_V; assumption.
  - assert (m2 = 2 ^ 53) by lia. subst m2.
    assert (Hv : V (2 ^ 53) E = V (2 ^ 52) (E + 1)).
    { rewrite V_scale by lia. unfold V. change (2 ^ 53) with (2 ^ 52 * 2 ^ 1).
      reflexivity. }
    rewrite Hv in Hle.
    assert (Hc : canon (2 ^ 52) (E + 1)).
    { unfold canon. pow2. lia. }
    assert (HE' : E + 1 <= 971).
    { destruct (Z_le_gt_dec (E + 1) 971); trivial.
      destruct Hcy as (Hy1 & Hy2 & Hy3).
      assert (V (Zpos my) ey < V (2 ^ 52) (E + 1)).
      { apply V_exp_lt; pow2; lia. }
      lia. }
    destruct (Z.leb_spec (E + 1) 971); [|lia].
    change (2 ^ 52) with (Zpos (Z.to_pos (2 ^ 52))) in Hc, Hle.
    apply SFleb_V; assumption.
Qed.

Lemma pack_ge m2 E my ey :
  0 <= m2 <= 2 ^ 53 -> -1074 <= E -> (-1074 < E -> 2 ^ 52 <= m2) ->
  bounded prec emax my ey = true ->
  V (Zpos my) ey <= V m2 E ->
  SFleb (S754_finite false my ey) (pack m2 E) = true.
Proof.
  intros Hm HE Hn Hy Hle.
  destruct (bounded_canon my ey Hy) as [Hcy Hey].
  assert (Hpos : 0 < V (Zpos my) ey).
  { pose proof Hcy as (_ & Hy2 & _).
    unfold V. apply Z.mul_pos_pos; [lia|]. apply Z.pow_pos_nonneg; lia. }
  unfold pack.
  destruct (Z.eqb_spec m2 0) as [->|Hne]; [unfold V in *; lia|].
  destruct (Z.ltb_spec m2 (2 ^ 53)) as [Hlt|Hge].
  - destruct (Z.leb_spec E 971); [|reflexivity].
    assert (Hc : canon m2 E) by (unfold canon; lia).
    destruct m2 as [|p|p]; try lia. cbn [Z.to_pos].
    apply SFleb_V; assumption.
  - assert (m2 = 2 ^ 53) by lia. subst m2.
    assert (Hv : V (2 ^ 53) E = V (2 ^ 52) (E + 1)).
    { rewrite V_scale by lia. unfold V. change (2 ^ 53) with (2 ^ 52 * 2 ^ 1).
      reflexivity. }
    rewrite Hv in Hle.
    destruct (Z.leb_spec (E + 1) 971); [|reflexivity].
    assert (Hc : canon (2 ^ 52) (E + 1)).
    { unfold canon. pow2. lia. }
    change (2 ^ 52) with (Zpos (Z.to_pos (2 ^ 52))) in Hc, Hle.
    apply SFleb_V; assumption.
Qed.

Section RoundAux.

Variables (mx ex : Z) (lx : location) (my : positive) (ey : Z).
Hypothesis Hm : 0 <= mx.
Hypothesis Hlow : -2200 <= ex.
Hypothesis He : ex <= fexp prec emax (Zdigits2 mx + ex).
Hypothesis Hy : bounded prec emax my ey = true.

(** Rounding never passes a double: below [y] before, at most [y] after. *)
Lemma round_aux_le :
  V mx ex < V (Zpos my) ey ->
  SFleb (binary_round_aux prec emax false mx ex lx) (S754_finite false my ey)
  = true.
Proof.
  intros Hlt.
  destruct (round_aux_pack mx ex lx Hm He) as (m2 & Hm2 & ->).
  destruct (cut_range mx ex Hm He) as (HE & Hq & Hn).
  destruct (bounded_canon my ey Hy) as [(Hy1 & Hy2 & Hy3) Hey].
  set (E := fexp prec emax (Zdigits2 mx + ex)) in *.
  set (q := mx / 2 ^ (E - ex)) in *.
  assert (Hp : 0 < 2 ^ (ex + 2200)) by (apply Z.pow_pos_nonneg; lia).
  assert (Hpn : 0 < 2 ^ (E - ex)) by (apply Z.pow_pos_nonneg; lia).
  assert (Hqm : q * 2 ^ (E - ex) <= mx).
  { unfold q. rewrite Z.mul_comm. apply Z.mul_div_le. exact Hpn. }
  assert (HVE : forall m, V m E = m * 2 ^ (E - ex) * 2 ^ (ex + 2200)).
  { intros m. replace E with (ex + (E - ex)) at 1 by lia.
    apply V_scale; lia. }
  apply pack_le; try lia; try assumption.
  destruct (Z_le_gt_dec E ey) as [Hge|Hlt'].
  - (* [y] is on the grid *)
    assert (HVy : V (Zpos my) ey
                  = Zpos my * 2 ^ (ey - E) * 2 ^ (E - ex) * 2 ^ (ex + 2200)).
    { replace ey with (ex + ((ey - E) + (E - ex))) at 1 by lia.
      rewrite V_scale by lia. rewrite Z.pow_add_r by lia. ring. }
    rewrite HVE, HVy.
    assert (Hpy : 0 < 2 ^ (ey - E)) by (apply Z.pow_pos_nonneg; lia).
    set (Y := Zpos my * 2 ^ (ey - E)) in *.
    assert (Hlt2 : mx < Y * 2 ^ (E - ex)).
    { rewrite HVy in Hlt. unfold V in Hlt.
      apply (Z.mul_lt_mono_pos_r (2 ^ (ex + 2200))); assumption. }
    assert (q < Y).
    { unfold q. apply Z.div_lt_upper_bound; [exact Hpn|]. lia. }
    apply Z.mul_le_mono_nonneg_r; [lia|].
    apply Z.mul_le_mono_nonneg_r; lia.
  - (* [y] lies below the grid: impossible *)
    exfalso. assert (HqE : 2 ^ 52 <= q) by (apply Hn; lia).
    assert (V (Zpos my) ey < V q E) by (apply V_exp_lt; lia).
    rewrite HVE in *. unfold V in Hlt at 1.
    assert (q * 2 ^ (E - ex) * 2 ^ (ex + 2200) <= mx * 2 ^ (ex + 2200))
      by (apply Z.mul_le_mono_nonneg_r; lia).
    lia.
Qed.

(** At least [y] before, at least [y] after. *)
Lemma round_aux_ge :
  V (Zpos my) ey <= V mx ex ->
  SFleb (S754_finite false my ey) (binary_round_aux prec emax false mx ex lx)
  = true.
Proof.
  intros Hle.
  destruct (round_aux_pack mx ex lx Hm He) as (m2 & Hm2 & ->).
  destruct (cut_range mx ex Hm He) as (HE & Hq & Hn).
  destruct (bounded_canon my ey Hy) as [(Hy1 & Hy2 & Hy3) Hey].
  set (E := fexp prec emax (Zdigits2 mx + ex)) in *.
  set (q := mx / 2 ^ (E - ex)) in *.
  assert (Hp : 0 < 2 ^ (ex + 2200)) by (apply Z.pow_pos_nonneg; lia).
  assert (Hpn : 0 < 2 ^ (E - ex)) by (apply Z.pow_pos_nonneg; lia).
  assert (HVE : forall m, V m E = m * 2 ^ (E - ex) * 2 ^ (ex + 2200)).
  { intros m. replace E with (ex + (E - ex)) at 1 by lia.
    apply V_scale; lia. }
  apply pack_ge; try lia; try assumption.
  destruct (Z_le_gt_dec E ey) as [Hge|Hlt'].
  - assert (HVy : V (Zpos my) ey
                  = Zpos my * 2 ^ (ey - E) * 2 ^ (E - ex) * 2 ^ (ex + 2200)).
    { replace ey with (ex + ((ey - E) + (E - ex))) at 1 by lia.
      rewrite V_scale by lia. rewrite Z.pow_add_r by lia. ring. }
    rewrite HVE, HVy.
    assert (Hpy : 0 < 2 ^ (ey - E)) by (apply Z.pow_pos_nonneg; lia).
    set (Y := Zpos my * 2 ^ (ey - E)) in *.
    assert (Hle2 : Y * 2 ^ (E - ex) <= mx).
    { rewrite HVy in Hle. unfold V in Hle.
      apply (Z.mul_le_mono_pos_r _ _ (2 ^ (ex + 2200))); assumption. }
    assert (Y <= q).
    { unfold q. apply Z.div_le_lower_bound; [exact Hpn|]. lia. }
    apply Z.mul_le_mono_nonneg_r; [lia|].
    apply Z.mul_le_mono_nonneg_r; lia.
  - assert (HqE : 2 ^ 52 <= q) by (apply Hn; lia).
    assert (V (Zpos my) ey < V q E) by (apply V_exp_lt; lia).
    rewrite HVE in *.
    assert (q * 2 ^ (E - ex) * 2 ^ (ex + 2200)
            <= m2 * 2 ^ (E - ex) * 2 ^ (ex + 2200)).
    { apply Z.mul_le_mono_nonneg_r; [lia|].
      apply Z.mul_le_mono_nonneg_r; lia. }
    lia.
Qed.

End RoundAux.

(** [shl_align] keeps the value: it lowers the exponent to [ex'] when
    that is below [ex], and does nothing otherwise. *)
Lemma shl_align_value mx ex ex' :
  -2200 <= ex' ->
  let '(mz, ez) := shl_align mx ex ex' in
  V (Zpos mz) ez = V (Zpos mx) ex /\
  (ex' < ex -> ez = ex' /\ Zpos mz = Zpos mx * 2 ^ (ex - ex')) /\
  (ex <= ex' -> ez = ex /\ mz = mx).
Proof.
  intros Hlow. unfold shl_align.
  destruct (ex' - ex) as [|d|d] eqn:Hd.
  - split; [reflexivity|]. split; [lia|]. intros _. split; reflexivity.
  - split; [reflexivity|]. split; [lia|]. intros _. split; reflexivity.
  - assert (Hz : Zpos (shift_pos d mx) = Zpos mx * 2 ^ (ex - ex')).
    { rewrite shift_pos_correct. replace (ex - ex') with (Zpos d) by lia.
      change (Zpower_pos 2 d) with (2 ^ Zpos d). ring. }
    change (Pos.iter xO mx d) with (shift_pos d mx).
    split; [|split; [intros _; split; [reflexivity|exact Hz]|lia]].
    change (Pos.iter xO mx d) with (shift_pos d mx).
    rewrite Hz. replace ex with (ex' + (ex - ex')) at 2 by lia.
    rewrite V_scale by lia. reflexivity.
Qed.

(** Shifting left by [k] adds [k] digits. *)
Lemma digits_shift mx k :
  0 <= k -> Zdigits2 (Zpos mx * 2 ^ k) = Zdigits2 (Zpos mx) + k.
Proof.
  intros Hk.
  assert (Hp : 0 < 2 ^ k) by (apply Z.pow_pos_nonneg; lia).
  destruct (Zpos mx * 2 ^ k) as [|p|p] eqn:Hz; try lia.
  cbn [Zdigits2].
  pose proof (digits2_pos_bounds mx) as [Hlo Hhi].
  apply digits2_pos_unique.
  rewrite <- Hz.
  replace (Zpos (digits2_pos mx) + k - 1) with (Zpos (digits2_pos mx) - 1 + k)
    by lia.
  rewrite !Z.pow_add_r by lia.
  assert (0 < 2 ^ (Zpos (digits2_pos mx) - 1)) by (apply Z.pow_pos_nonneg; lia).
  split; nia.
Qed.

(** [binary_round] first brings the mantissa to at least the exponent of
    the format, which changes no value. *)
Lemma binary_round_as_aux mx ex :
  -2200 <= ex ->
  exists mz ez,
    (binary_round prec emax false mx ex
     = binary_round_aux prec emax false (Zpos mz) ez loc_Exact) /\
    (V (Zpos mz) ez = V (Zpos mx) ex) /\
    (-2200 <= ez) /\
    (ez <= fexp prec emax (Zdigits2 (Zpos mz) + ez)).
Proof.
  intros Hlow. unfold binary_round.
  set (E := fexp prec emax (Zpos (digits2_pos mx) + ex)).
  assert (HE : -1074 <= E) by (unfold E; rewrite fexp_eq; lia).
  pose proof (shl_align_value mx ex E ltac:(lia)) as H.
  destruct (shl_align mx ex E) as [mz ez].
  destruct H as (HV & Hlt & Hge).
  exists mz, ez. split; [reflexivity|]. split; [exact HV|].
  destruct (Z_lt_le_dec E ex) as [Hc|Hc].
  - destruct (Hlt Hc) as [-> Hz]. split; [lia|].
    rewrite Hz, digits_shift by lia.
    cbn [Zdigits2].
    replace (Zpos (digits2_pos mx) + (ex - E) + E)
      with (Zpos (digits2_pos mx) + ex) by lia.
    fold E. lia.
  - destruct (Hge Hc) as [-> ->]. split; [lia|]. cbn [Zdigits2]. exact Hc.
Qed.

Section Round.

Variables (mx : positive) (ex : Z) (my : positive) (ey : Z).
Hypothesis Hlow : -2200 <= ex.
Hypothesis Hy : bounded prec emax my ey = true.

Lemma binary_round_le :
  V (Zpos mx) ex < V (Zpos my) ey ->
  SFleb (binary_round prec emax false mx ex) (S754_finite false my ey) = true.
Proof.
  intros Hlt.
  destruct (binary_round_as_aux mx ex Hlow) as (mz & ez & -> & HV & Hl & He).
  apply round_aux_le; try assumption; lia.
Qed.

Lemma binary_round_ge :
  V (Zpos my) ey <= V (Zpos mx) ex ->
  SFleb (S754_finite false my ey) (binary_round prec emax false mx ex) = true.
Proof.
  intros Hle.
  destruct (binary_round_as_aux mx ex Hlow) as (mz & ez & -> & HV & Hl & He).
  apply round_aux_ge; try assumption; lia.
Qed.

End Round.

(** The product of a mantissa with a 53-digit mantissa never lies below
    the exponent of the format. *)
Lemma product_exponent ma mb e :
  Zpos (digits2_pos mb) = 53 ->
  e <= fexp prec emax (Zdigits2 (Zpos (ma * mb)) + e).
Proof.
  intros Hb. rewrite fexp_eq. cbn [Zdigits2].
  pose proof (digits2_pos_bounds ma) as [Ha _].
  pose proof (digits2_pos_bounds mb) as [Hb' _].
  pose proof (digits2_pos_bounds (ma * mb)) as [_ Hab].
  rewrite Hb in Hb'. rewrite Pos2Z.inj_mul in Hab.
  set (da := Zpos (digits2_pos ma)) in *.
  set (dab := Zpos (digits2_pos (ma * mb))) in *.
  assert (0 < da) by (unfold da; lia).
  assert (0 < dab) by (unfold dab; lia).
  assert (Hlt : 2 ^ (da - 1 + 52) < 2 ^ dab).
  { rewrite Z.pow_add_r by lia.
    assert (0 < 2 ^ (da - 1)) by (apply Z.pow_pos_nonneg; lia).
    change (53 - 1) with 52 in Hb'. nia. }
  apply Z.pow_lt_mono_r_iff in Hlt; lia.
Qed.

(** The shapes a rounding to a positive sign can take. *)
Lemma round_aux_shape mx ex lx :
  0 <= mx -> ex <= fexp prec emax (Zdigits2 mx + ex) ->
  binary_round_aux prec emax false mx ex lx = S754_zero false \/
  binary_round_aux prec emax false mx ex lx = S754_infinity false \/
  exists m e, binary_round_aux prec emax false mx ex lx = S754_finite false m e.
Proof.
  intros Hm He.
  destruct (round_aux_pack mx ex lx Hm He) as (m2 & _ & ->).
  unfold pack.
  destruct (m2 =? 0); [left; reflexivity|].
  destruct (m2 <? 2 ^ 53).
  - destruct (_ <=? 971); [right; right; eauto|right; left; reflexivity].
  - destruct (_ <=? 971); [right; right; eauto|right; left; reflexivity].
Qed.

(** A double other than zero has one mantissa and exponent. *)
Lemma canon_unique m1 e1 m2 e2 :
  canon m1 e1 -> canon m2 e2 -> V m1 e1 = V m2 e2 -> m1 = m2 /\ e1 = e2.
Proof.
  intros H1 H2 HV.
  pose proof (proj1 (canon_le m1 e1 m2 e2 H1 H2) ltac:(lia)).
  pose proof (proj1 (canon_le m2 e2 m1 e1 H2 H1) ltac:(lia)).
  lia.
Qed.

(** A double is at most itself. *)
Lemma SFleb_refl_finite m e :
  SFleb (S754_finite false m e) (S754_finite false m e) = true.
Proof.
  rewrite SFleb_pos, Z.compare_refl. apply Z.leb_refl.
Qed.

(** The product of two doubles never lies below the exponent of the
    format. *)
Lemma product_exponent_bounded ma ea mb eb :
  bounded prec emax ma ea = true -> bounded prec emax mb eb = true ->
  ea + eb <= fexp prec emax (Zdigits2 (Zpos (ma * mb)) + (ea + eb)).
Proof.
  intros Ha Hb.
  destruct (bounded_digits ma ea Ha) as (Ha1 & Ha2 & Ha3).
  destruct (bounded_digits mb eb Hb) as (Hb1 & Hb2 & Hb3).
  destruct (Z.eq_dec (Zpos (digits2_pos mb)) 53) as [Hd|Hd].
  - apply product_exponent. exact Hd.
  - destruct (Z.eq_dec (Zpos (digits2_pos ma)) 53) as [Hd'|Hd'].
    + rewrite Pos.mul_comm. apply product_exponent. exact Hd'.
    + rewrite fexp_eq. lia.
Qed.

(** What [SFadd] rounds: the sum of the two values, at the smaller
    exponent. *)
Lemma SFadd_finite sx mx ex sy my ey :
  -2200 <= ex -> -2200 <= ey ->
  exists z ez,
    SFadd prec emax (S754_finite sx mx ex) (S754_finite sy my ey)
    = binary_normalize prec emax z ez false /\
    -2200 <= ez /\
    V z ez = cond_Zopp sx (V (Zpos mx) ex) + cond_Zopp sy (V (Zpos my) ey).
Proof.
  intros Hx Hy. unfold SFadd. cbv zeta.
  set (ez := Z.min ex ey).
  assert (Hez : -2200 <= ez) by (unfold ez; lia).
  pose proof (shl_align_value mx ex ez Hez) as Ha.
  pose proof (shl_align_value my ey ez Hez) as Hb.
  destruct (shl_align mx ex ez) as [ma ea].
  destruct (shl_align my ey ez) as [mb eb].
  destruct Ha as (HVa & Ha1 & Ha2). destruct Hb as (HVb & Hb1 & Hb2).
  assert (Hea : ea = ez).
  { destruct (Z_lt_le_dec ez ex) as [Hc|Hc].
    - apply Ha1. exact Hc.
    - destruct (Ha2 Hc) as [-> _]. unfold ez in *. lia. }
  assert (Heb : eb = ez).
  { destruct (Z_lt_le_dec ez ey) as [Hc|Hc].
    - apply Hb1. exact Hc.
    - destruct (Hb2 Hc) as [-> _]. unfold ez in *. lia. }
  subst ea eb. cbn [fst].
  eexists. exists ez. split; [reflexivity|]. split; [exact Hez|].
  rewrite <- HVa, <- HVb. unfold V.
  destruct sx, sy; cbn [cond_Zopp]; ring.
Qed.

(** The value has the sign of the mantissa. *)
Lemma V_pos_iff z e : -2200 <= e -> (0 < V z e <-> 0 < z).
Proof.
  intros He. unfold V.
  assert (0 < 2 ^ (e + 2200)) by (apply Z.pow_pos_nonneg; lia).
  split; intros; nia.
Qed.

(** [binary_normalize] of a positive value, against a double [y]. *)
Lemma normalize_le z ez my ey :
  -2200 <= ez -> bounded prec emax my ey = true ->
  0 < V z ez -> V z ez < V (Zpos my) ey ->
  SFleb (binary_normalize prec emax z ez false) (S754_finite false my ey)
  = true.
Proof.
  intros Hez Hy Hpos Hlt. apply V_pos_iff in Hpos; [|exact Hez].
  destruct z as [|z|z]; try lia. cbn [binary_normalize].
  apply binary_round_le; assumption.
Qed.

Lemma normalize_ge z ez my ey :
  -2200 <= ez -> bounded prec emax my ey = true ->
  0 < V z ez -> V (Zpos my) ey <= V z ez ->
  SFleb (S754_finite false my ey) (binary_normalize prec emax z ez false)
  = true.
Proof.
  intros Hez Hy Hpos Hle. apply V_pos_iff in Hpos; [|exact Hez].
  destruct z as [|z|z]; try lia. cbn [binary_normalize].
  apply binary_round_ge; assumption.
Qed.

(** The value of a whole number [j]. *)
Lemma V_whole m e j :
  -2200 <= e <= 0 -> m = j * 2 ^ (- e) -> V m e = j * 2 ^ 2200.
Proof.
  intros He ->. unfold V. rewrite <- Z.mul_assoc, <- Z.pow_add_r by lia.
  do 2 f_equal. lia.
Qed.

(** The unit of [V], kept folded in proofs. *)
Lemma two_2200_pos : 0 < 2 ^ 2200.
Proof. apply Z.pow_pos_nonneg; [reflexivity|discriminate]. Qed.

Lemma two_2200_split e :
  -2200 <= e <= 0 -> 2 ^ 2200 = 2 ^ (- e) * 2 ^ (e + 2200).
Proof. intros He. rewrite <- Z.pow_add_r by lia. f_equal. lia. Qed.

Lemma two_2200_le e : 0 <= e -> 2 ^ 2200 <= 2 ^ (e + 2200).
Proof. intros He. apply Z.pow_le_mono_r; lia. Qed.

Lemma V_one : V 4503599627370496 (-52) = 2 ^ 2200.
Proof.
  rewrite (V_whole _ _ 1); [apply Z.mul_1_l|lia|vm_compute; reflexivity].
Qed.

(** A product of two factors, one of them short of its bound, is short of
    the product of the bounds. *)
Lemma product_below a b A P p :
  0 < a <= A -> 0 < b <= P -> a <> A \/ b <> P ->
  p * P = a * b -> p < A.
Proof. intros Ha Hb Hne Hp. nia. Qed.

(** The value of a product of mantissas at the sum of the exponents. *)
Lemma V_product ma ea mb eb :
  -1074 <= ea -> -1074 <= eb ->
  V (Zpos (ma * mb)) (ea + eb) * 2 ^ 2200 = V (Zpos ma) ea * V (Zpos mb) eb.
Proof.
  intros Ha Hb. unfold V. rewrite Pos2Z.inj_mul.
  assert (H1 : 2 ^ (ea + eb + 2200) = 2 ^ (ea + 1100) * 2 ^ (eb + 1100)).
  { rewrite <- Z.pow_add_r by lia. f_equal. lia. }
  assert (H2 : 2 ^ (ea + 2200) = 2 ^ (ea + 1100) * 2 ^ 1100).
  { rewrite <- Z.pow_add_r by lia. f_equal. lia. }
  assert (H3 : 2 ^ (eb + 2200) = 2 ^ (eb + 1100) * 2 ^ 1100).
  { rewrite <- Z.pow_add_r by lia. f_equal. lia. }
  assert (H4 : 2 ^ 2200 = 2 ^ 1100 * 2 ^ 1100).
  { rewrite <- Z.pow_add_r by lia. reflexivity. }
  rewrite H1, H2, H3, H4. ring.
Qed.

(** A double of at most [R] times a double of at most 1 is at most [R]
    in magnitude, after rounding as well. *)
Lemma mul_magnitude mr er mc ec mR eR :
  bounded prec emax mr er = true ->
  bounded prec emax mc ec = true ->
  bounded prec emax mR eR = true ->
  V (Zpos mr) er <= V (Zpos mR) eR ->
  V (Zpos mc) ec <= V 4503599627370496 (-52) ->
  SFmul prec emax (S754_finite false mR eR) c1 = S754_finite false mR eR ->
  SFleb (binary_round_aux prec emax false (Zpos (mr * mc)) (er + ec) loc_Exact)
        (S754_finite false mR eR) = true.
Proof.
  intros Hr Hc HR Hle1 Hle2 Hone.
  destruct (bounded_canon mr er Hr) as [Hcr _].
  destruct (bounded_canon mc ec Hc) as [Hcc _].
  destruct (bounded_canon mR eR HR) as [HcR _].
  assert (Hc1 : canon 4503599627370496 (-52))
    by (unfold canon; vm_compute; intuition congruence).
  pose proof Hcr as (_ & Her & _). pose proof Hcc as (_ & Hec & _).
  pose proof HcR as (_ & HeR & _).
  destruct (Z.eq_dec (V (Zpos mr) er) (V (Zpos mR) eR)) as [E1|N1].
  - destruct (Z.eq_dec (V (Zpos mc) ec) (V 4503599627370496 (-52)))
      as [E2|N2].
    + destruct (canon_unique _ _ _ _ Hcr HcR E1) as [Hm ->].
      destruct (canon_unique _ _ _ _ Hcc Hc1 E2) as [Hm' ->].
      injection Hm as ->. injection Hm' as ->.
      change (binary_round_aux prec emax false
                (Zpos (mR * 4503599627370496)) (eR + -52) loc_Exact)
        with (SFmul prec emax (S754_finite false mR eR) c1).
      rewrite Hone. apply SFleb_refl_finite.
    + apply round_aux_le; try assumption; try lia.
      * apply product_exponent_bounded; assumption.
      * assert (0 < V (Zpos mc) ec) by (apply V_pos_iff; lia).
        assert (0 < V (Zpos mr) er) by (apply V_pos_iff; lia).
        rewrite V_one in Hle2, N2.
        apply (product_below (V (Zpos mr) er) (V (Zpos mc) ec) _ (2 ^ 2200));
          [split; assumption|split; assumption|right; exact N2|].
        apply V_product; lia.
  - apply round_aux_le; try assumption; try lia.
    * apply product_exponent_bounded; assumption.
    * assert (0 < V (Zpos mc) ec) by (apply V_pos_iff; lia).
      assert (0 < V (Zpos mr) er) by (apply V_pos_iff; lia).
      rewrite V_one in Hle2.
      apply (product_below (V (Zpos mr) er) (V (Zpos mc) ec) _ (2 ^ 2200));
        [split; assumption|split; assumption|left; exact N1|].
      apply V_product; lia.
Qed.

(** Rounding a mantissa of at most 53 digits in the normal range changes
    nothing: the result is the same value, written with 53 digits. *)
Lemma binary_round_exact q e :
  Zpos (digits2_pos q) <= 53 ->
  -1074 <= Zpos (digits2_pos q) + e - 53 <= 970 ->
  exists mz ez,
    binary_round prec emax false q e = S754_finite false mz ez /\
    bounded prec emax mz ez = true /\
    V (Zpos mz) ez = V (Zpos q) e.
Proof.
  intros Hd He. unfold binary_round.
  set (d := Zpos (digits2_pos q)) in *.
  assert (HE : fexp prec emax (d + e) = d + e - 53)
    by (rewrite fexp_eq; lia).
  rewrite HE.
  pose proof (shl_align_value q e (d + e - 53) ltac:(lia)) as H.
  destruct (shl_align q e (d + e - 53)) as [mz ez].
  destruct H as (HV & Hlt & Hge).
  assert (Hz : Zpos mz = Zpos q * 2 ^ (53 - d) /\ ez = d + e - 53).
  { destruct (Z_lt_le_dec (d + e - 53) e) as [Hc|Hc].
    - destruct (Hlt Hc) as [-> Hm]. split; [|reflexivity].
      rewrite Hm. f_equal. f_equal. lia.
    - destruct (Hge Hc) as [-> ->]. assert (d = 53) by lia.
      replace (53 - d) with 0 by lia. split; lia. }
  destruct Hz as [Hmz ->].
  assert (Hdz : Zpos (digits2_pos mz) = 53).
  { change (Zpos (digits2_pos mz)) with (Zdigits2 (Zpos mz)).
    rewrite Hmz, digits_shift by lia. cbn [Zdigits2]. fold d. lia. }
  rewrite round_53_digits by (try exact Hdz; lia).
  cbv zeta. cbn [round_nearest_even].
  pose proof (digits2_pos_bounds mz) as [_ Hhi]. rewrite Hdz in Hhi.
  destruct (Z.ltb_spec (Zpos mz) (2 ^ 53)) as [_|Hc]; [|lia].
  cbn [Z.to_pos].
  exists mz, (d + e - 53). split; [reflexivity|]. split; [|exact HV].
  unfold bounded, canonical_mantissa. rewrite Hdz, fexp_eq.
  apply andb_true_intro. split; [apply Z.eqb_eq; lia|apply Z.leb_le].
  change (emax - prec) with 971. lia.
Qed.

(** The double of a whole number below [2^53]. *)
Lemma of_Z_decode n :
  0 < n < 2 ^ 53 ->
  exists mz ez,
    Prim2SF (Js.of_Z n) = S754_finite false mz ez /\
    bounded prec emax mz ez = true /\
    V (Zpos mz) ez = n * 2 ^ 2200.
Proof.
  intros Hn. unfold Js.of_Z.
  destruct n as [|q|q]; try lia. cbn [binary_normalize].
  pose proof (digits2_pos_bounds q) as [Hlo Hhi].
  assert (Hd : Zpos (digits2_pos q) <= 53).
  { destruct (Z_le_gt_dec (Zpos (digits2_pos q)) 53) as [|Hc]; [assumption|].
    assert (2 ^ 53 <= 2 ^ (Zpos (digits2_pos q) - 1))
      by (apply Z.pow_le_mono_r; lia).
    lia. }
  destruct (binary_round_exact q 0 Hd ltac:(lia)) as (mz & ez & Hr & Hb & HV).
  exists mz, ez. rewrite Hr.
  split; [apply Prim2SF_SF2Prim; exact Hb|]. split; [exact Hb|].
  rewrite HV. reflexivity.
Qed.

(** The representation of a valid double. *)
Lemma canon_of_bounded m e : bounded prec emax m e = true -> canon (Zpos m) e.
Proof. intros H. apply bounded_canon in H. tauto. Qed.

End RoundingFacts.

(** ** The range of the degree *)

Section Range.
Import NatalChart Double Div30 Rounding RoundingFacts.

(** [longitude_of], decoded. *)
Lemma Prim2SF_longitude angle :
  Prim2SF (longitude_of angle) = SFlongitude (Prim2SF angle).
Proof.
  unfold longitude_of, SFlongitude. cbv zeta.
  rewrite ltb_spec, mul_spec.
  replace (Prim2SF (180 / Js.PI)) with cK by (vm_compute; reflexivity).
  replace (Prim2SF 0) with (S754_zero false) by (vm_compute; reflexivity).
  destruct (SFltb _ _).
  - rewrite add_spec, mul_spec.
    replace (Prim2SF (180 / Js.PI)) with cK by (vm_compute; reflexivity).
    replace (Prim2SF 360) with c360 by (vm_compute; reflexivity).
    reflexivity.
  - rewrite mul_spec.
    replace (Prim2SF (180 / Js.PI)) with cK by (vm_compute; reflexivity).
    reflexivity.
Qed.

(** Between two negative doubles the order is that of the magnitudes,
    reversed. *)
Lemma SFleb_neg m1 e1 m2 e2 :
  SFleb (S754_finite true m1 e1) (S754_finite true m2 e2)
  = SFleb (S754_finite false m2 e2) (S754_finite false m1 e1).
Proof.
  unfold SFleb, SFcompare.
  rewrite (Z.compare_antisym e1 e2).
  destruct (e1 ?= e2); cbn [CompOpp]; try reflexivity.
  change (Pos.compare_cont Eq m1 m2) with (Pos.compare m1 m2).
  change (Pos.compare_cont Eq m2 m1) with (Pos.compare m2 m1).
  rewrite (Pos.compare_antisym m1 m2).
  destruct (m1 ?= m2)%positive; reflexivity.
Qed.

(** At most: below, or equal. *)
Lemma SFleb_cases a b :
  SFleb a b = true -> SFltb a b = true \/ SFeqb a b = true.
Proof.
  unfold SFleb, SFltb, SFeqb.
  destruct (SFcompare a b) as [[| |]|]; intros H;
    try discriminate; [right|left]; reflexivity.
Qed.

(** The scaled magnitude stays below any double that lies above
    [PI * (180 / PI)]. *)
Lemma scaled_below m e my ey :
  bounded prec emax m e = true ->
  bounded prec emax my ey = true ->
  SFleb (S754_finite false m e) cPI = true ->
  (8063664102031864 * V 7074237752028440 (-51) <? V (Zpos my) ey * 2 ^ 47)
  = true ->
  SFleb (binary_round_aux prec emax false
           (Zpos (m * 8063664102031864)) (e + -47) loc_Exact)
        (S754_finite false my ey) = true.
Proof.
  intros Hb Hy Hle Hc.
  destruct (bounded_canon m e Hb) as [Hcm Hem].
  apply SFleb_V in Hle; [|exact Hcm|unfold canon; vm_compute; intuition congruence].
  apply Z.ltb_lt in Hc.
  pose proof Hcm as (Hm1 & Hm2 & Hm3).
  apply round_aux_le; try lia; try assumption.
  - apply product_exponent. vm_compute. reflexivity.
  - assert (Hs : V (Zpos (m * 8063664102031864)) (e + -47) * 2 ^ 47
                 = 8063664102031864 * V (Zpos m) e).
    { unfold V. rewrite Pos2Z.inj_mul.
      replace (e + 2200) with (47 + (e + -47 + 2200)) by lia.
      rewrite (Z.pow_add_r 2 47) by lia. ring. }
    assert (H47 : 0 < 2 ^ 47) by (apply Z.pow_pos_nonneg; lia).
    apply (Z.mul_lt_mono_pos_r (2 ^ 47)); [exact H47|].
    rewrite Hs.
    eapply Z.le_lt_trans; [|exact Hc].
    apply Z.mul_le_mono_nonneg_l; [lia|exact Hle].
Qed.

(** Zero, a positive double and plus infinity are not below zero. *)
Lemma round_shape_nonneg r :
  r = S754_zero false \/ r = S754_infinity false \/
  (exists m e, r = S754_finite false m e) ->
  SFleb (S754_zero false) r = true /\ SFltb r (S754_zero false) = false.
Proof.
  intros [->|[->|(m & e & ->)]]; split; reflexivity.
Qed.

(** A turn of the right half: the scaled angle is the degree. *)
Lemma SFlongitude_nonneg m e :
  bounded prec emax m e = true ->
  SFleb (S754_finite false m e) cPI = true ->
  SFleb (S754_zero false) (SFlongitude (S754_finite false m e)) = true /\
  SFleb (SFlongitude (S754_finite false m e)) c360 = true.
Proof.
  intros Hb Hle.
  pose proof (scaled_below m e _ _ Hb
                (eq_refl : bounded prec emax 6333186975989760 (-44) = true)
                Hle ltac:(vm_compute; reflexivity)) as H360.
  unfold SFlongitude. cbn [SFmul cK xorb].
  set (r := binary_round_aux prec emax false _ _ _) in *.
  assert (Hs : SFleb (S754_zero false) r = true /\
               SFltb r (S754_zero false) = false).
  { apply round_shape_nonneg. apply round_aux_shape; [lia|].
    apply product_exponent. vm_compute. reflexivity. }
  destruct Hs as [H0 ->]. split; assumption.
Qed.

(** Adding the turn to a negative degree of at most 256 in magnitude
    lands between 0 and 360. *)
Lemma add_turn M E' :
  bounded prec emax M E' = true ->
  SFleb (S754_finite false M E') c256 = true ->
  SFleb (S754_zero false) (SFadd prec emax (S754_finite true M E') c360)
  = true /\
  SFleb (SFadd prec emax (S754_finite true M E') c360) c360 = true.
Proof.
  intros Hb H256.
  destruct (bounded_canon M E' Hb) as [Hc _].
  assert (Hc256 : canon 4503599627370496 (-44))
    by (unfold canon; vm_compute; intuition congruence).
  apply SFleb_V in H256; [|exact Hc|exact Hc256].
  apply canon_le in H256; [|exact Hc|exact Hc256].
  pose proof Hc as (Hm1 & Hm2 & Hm3).
  assert (HE : E' <= -44) by lia.
  unfold SFadd, c360. cbv zeta.
  replace (Z.min E' (-44)) with E' by lia.
  pose proof (shl_align_value M E' E' ltac:(lia)) as Ha.
  destruct (shl_align M E' E') as [ma ea].
  destruct Ha as (_ & _ & Ha). destruct (Ha (Z.le_refl _)) as [-> ->].
  pose proof (shl_align_value 6333186975989760 (-44) E' ltac:(lia)) as Hs.
  destruct (shl_align 6333186975989760 (-44) E') as [mb eb].
  destruct Hs as (HVb & Hlt & Hge).
  cbn [fst cond_Zopp].
  assert (Hmb : Zpos mb = 6333186975989760 * 2 ^ (-44 - E') /\ eb = E').
  { destruct (Z_lt_le_dec E' (-44)) as [Hc1|Hc1].
    - destruct (Hlt Hc1) as [-> ->]. split; reflexivity.
    - destruct (Hge Hc1) as [-> ->]. replace E' with (-44) by lia.
      split; reflexivity. }
  destruct Hmb as [Hmb ->].
  assert (Hp : 1 <= 2 ^ (-44 - E')).
  { change 1 with (2 ^ 0). apply Z.pow_le_mono_r; lia. }
  assert (Hz : 0 < - Zpos M + Zpos mb).
  { rewrite Hmb. destruct (Z.eq_dec E' (-44)) as [->|Hne].
    - change (2 ^ (-44 - -44)) with 1. lia.
    - assert (2 ^ 1 <= 2 ^ (-44 - E')) by (apply Z.pow_le_mono_r; lia).
      change (2 ^ 1) with 2 in *. pow2. lia. }
  destruct (- Zpos M + Zpos mb) as [|z|z] eqn:Hzz; try lia.
  cbn [binary_normalize]. split.
  - destruct (binary_round_as_aux z E' ltac:(lia)) as (mz & ez & -> & _ & _ & He).
    apply round_shape_nonneg, round_aux_shape; [lia|exact He].
  - apply binary_round_le; [lia|reflexivity|].
    rewrite <- HVb. unfold V. rewrite <- Hzz.
    assert (0 < 2 ^ (E' + 2200)) by (apply Z.pow_pos_nonneg; lia).
    nia.
Qed.

(** A turn of the left half: the scaled angle is negative, at most 256
    in magnitude, and the turn is added to it. *)
Lemma SFlongitude_neg m e :
  bounded prec emax m e = true ->
  SFleb (S754_finite true 7074237752028440 (-51)) (S754_finite true m e)
  = true ->
  valid_binary (SFmul prec emax (S754_finite true m e) cK) = true ->
  SFleb (S754_zero false) (SFlongitude (S754_finite true m e)) = true /\
  SFleb (SFlongitude (S754_finite true m e)) c360 = true.
Proof.
  intros Hb Hge Hv. rewrite SFleb_neg in Hge. fold cPI in Hge.
  pose proof (scaled_below m e _ _ Hb
                (eq_refl : bounded prec emax 4503599627370496 (-44) = true)
                Hge ltac:(vm_compute; reflexivity)) as H256.
  unfold SFlongitude. cbn [SFmul cK xorb] in *.
  assert (Hopp : forall mx ex,
             binary_round_aux prec emax true mx ex loc_Exact
             = SFopp (binary_round_aux prec emax false mx ex loc_Exact)).
  { intros mx ex. rewrite FloatFacts.binary_round_aux_opp. reflexivity. }
  rewrite Hopp in *.
  destruct (round_aux_shape (Zpos (m * 8063664102031864)) (e + -47) loc_Exact)
    as [H|[H|(M & E' & H)]];
    [lia|apply product_exponent; vm_compute; reflexivity| | |];
    rewrite H in *.
  - split; reflexivity.
  - discriminate.
  - cbn [SFopp negb] in *.
    change (SFltb (S754_finite true M E') (S754_zero false)) with true.
    cbv iota. apply add_turn; assumption.
Qed.

(** Both halves, and the zeros. *)
Lemma SFlongitude_range x :
  valid_binary x = true ->
  valid_binary (SFmul prec emax x cK) = true ->
  SFleb (S754_finite true 7074237752028440 (-51)) x = true ->
  SFleb x cPI = true ->
  SFleb (S754_zero false) (SFlongitude x) = true /\
  SFleb (SFlongitude x) c360 = true.
Proof.
  intros Hv Hvl Hlo Hhi.
  destruct x as [s|s| |s m e].
  - destruct s; split; reflexivity.
  - destruct s; discriminate.
  - discriminate.
  - destruct s.
    + apply SFlongitude_neg; assumption.
    + apply SFlongitude_nonneg; assumption.
Qed.

(** For an angle that [Math.atan2] can return, the degree lies between 0
    and 360: below 360, or 360 itself. *)
Lemma longitude_range angle :
  (- Js.PI <=? angle)%float = true -> (angle <=? Js.PI)%float = true ->
  (0 <=? longitude_of angle)%float = true /\
  ((longitude_of angle <? 360)%float = true \/ longitude_of angle = 360%float).
Proof.
  intros Hlo Hhi.
  rewrite leb_spec in Hlo, Hhi.
  replace (Prim2SF (- Js.PI))
    with (S754_finite true 7074237752028440 (-51)) in Hlo
    by (vm_compute; reflexivity).
  replace (Prim2SF Js.PI) with cPI in Hhi by (vm_compute; reflexivity).
  pose proof (Prim2SF_valid angle) as Hv.
  pose proof (Prim2SF_valid (angle * (180 / Js.PI))) as Hvl.
  rewrite mul_spec in Hvl.
  replace (Prim2SF (180 / Js.PI)) with cK in Hvl by (vm_compute; reflexivity).
  destruct (SFlongitude_range _ Hv Hvl Hlo Hhi) as [H0 H360].
  rewrite <- Prim2SF_longitude in H0, H360.
  split.
  - rewrite leb_spec.
    replace (Prim2SF 0) with (S754_zero false) by (vm_compute; reflexivity).
    exact H0.
  - destruct (SFleb_cases _ _ H360) as [Hlt|Heq]; [left|right].
    + rewrite ltb_spec.
      replace (Prim2SF 360) with c360 by (vm_compute; reflexivity).
      exact Hlt.
    + apply Prim2SF_inj.
      replace (Prim2SF 360) with c360 by (vm_compute; reflexivity).
      apply FloatFacts.SFeqb_finite. exact Heq.
Qed.

End Range.

(** ** Every position, from the angle to the sign *)

Lemma Forall2_In_right {A B : Type} (R : A -> B -> Prop) xs ys b :
  Forall2 R xs ys -> In b ys -> exists a, In a xs /\ R a b.
Proof.
  induction 1 as [|a b' xs ys Hab _ IH]; simpl; [tauto|].
  intros [<-|Hin].
  - exists a. split; [left; reflexivity|exact Hab].
  - destruct (IH Hin) as (a' & Ha' & HR). exists a'. split; [right|]; assumption.
Qed.

Section Circle.
Import NatalChart.

Variable atan2 : float -> float -> float.
Variable zone : Zone.

(** Each position the projector returns was built from the vector of its
    row. *)
Lemma positions_are_projected gv dob tob ps q :
  planetaryPositions atan2 zone gv dob tob = Ok ps -> In q ps ->
  exists p v,
    In p PLANETS /\
    gv (key p) (toDate (dateObj zone dob tob)) true = Ok v /\
    q = position_at atan2 p v.
Proof.
  intros Hps Hq. unfold planetaryPositions in Hps.
  apply array_map_returns in Hps.
  destruct (Forall2_In_right _ _ _ _ Hps Hq) as (p & Hp & Hpq).
  unfold position_of in Hpq.
  destruct (gv (key p) (toDate (dateObj zone dob tob)) true) as [v|msg] eqn:Hv;
    simpl in Hpq; [|discriminate].
  injection Hpq as <-. exists p, v. repeat split; assumption.
Qed.

(** X7.  With [Math.atan2] in its range, the degree of every position the
    projector returns lies between 0 and 360: it is below 360, or it is 360
    itself. *)
Theorem degrees_lie_on_the_circle :
  forall (gv : Body -> Z -> bool -> result Vector) (dob tob : Dayjs)
         (ps : list Position) (q : Position),
    angles_in_range atan2 gv (toDate (dateObj zone dob tob)) ->
    planetaryPositions atan2 zone gv dob tob = Ok ps ->
    In q ps ->
    (0 <=? degree q)%float = true /\
    ((degree q <? 360)%float = true \/ degree q = 360%float).
Proof.
  intros gv dob tob ps q Hrange Hps Hq.
  destruct (positions_are_projected _ _ _ _ _ Hps Hq) as (p & v & Hp & Hv & ->).
  destruct (Hrange p v Hp Hv) as [Hlo Hhi].
  unfold position_at. cbn [degree].
  apply longitude_range; assumption.
Qed.

(** X8.  With [Math.atan2] in its range, every position the projector
    returns carries the sign of the sector that holds its degree; the one
    exception is a degree of 360, which carries the empty string. *)
Theorem every_position_has_its_sector_or_none :
  forall (gv : Body -> Z -> bool -> result Vector) (dob tob : Dayjs)
         (ps : list Position) (q : Position),
    angles_in_range atan2 gv (toDate (dateObj zone dob tob)) ->
    planetaryPositions atan2 zone gv dob tob = Ok ps ->
    In q ps ->
    (exists (k : nat) (s : Sign),
        in_sector (degree q) k s /\ sign q = sign_name s)
    \/ (degree q = 360%float /\ sign q = EmptyString).
Proof.
  intros gv dob tob ps q Hrange Hps Hq.
  destruct (positions_are_projected _ _ _ _ _ Hps Hq) as (p & v & Hp & Hv & ->).
  destruct (Hrange p v Hp Hv) as [Hlo Hhi].
  unfold position_at. cbn [degree sign].
  destruct (longitude_range _ Hlo Hhi) as [H0 [Hlt|Heq]].
  - left. destruct (sector_of_longitude _ H0 Hlt) as (k & s & Hin).
    exists k, s. split; [exact Hin|].
    destruct Hin as (_ & _ & _ & Hname & _). exact Hname.
  - right. rewrite Heq. split; [reflexivity|]. vm_compute. reflexivity.
Qed.

End Circle.

(** ** The drawing stays on the canvas *)

(** A point at most [R] away from the centre [C]. *)

Section Offset.
Import Double Div30 Rounding RoundingFacts.

Variables (mC : positive) (eC : Z) (mR : positive) (eR : Z).
Variables (mlo : positive) (elo : Z) (mhi : positive) (ehi : Z).

Hypothesis HbC : bounded prec emax mC eC = true.
Hypothesis HbR : bounded prec emax mR eR = true.
Hypothesis Hblo : bounded prec emax mlo elo = true.
Hypothesis Hbhi : bounded prec emax mhi ehi = true.

(** [lo] is [C - R] and [hi] is [C + R], exactly. *)
Hypothesis Hlo : V (Zpos mlo) elo = V (Zpos mC) eC - V (Zpos mR) eR.
Hypothesis Hhi : V (Zpos mhi) ehi = V (Zpos mC) eC + V (Zpos mR) eR.

(** The two roundings at the rim. *)
Hypothesis Hone :
  SFmul prec emax (S754_finite false mR eR) c1 = S754_finite false mR eR.
Hypothesis Hsum :
  SFadd prec emax (S754_finite false mC eC) (S754_finite false mR eR)
  = S754_finite false mhi ehi.

Let C := S754_finite false mC eC.
Let lo := S754_finite false mlo elo.
Let hi := S754_finite false mhi ehi.

(** The centre itself lies between [lo] and [hi]. *)
Lemma centre_within : SFleb lo C = true /\ SFleb C hi = true.
Proof.
  destruct (bounded_canon _ _ HbC) as [HcC _].
  destruct (bounded_canon _ _ HbR) as [HcR _].
  destruct (bounded_canon _ _ Hblo) as [Hclo _].
  destruct (bounded_canon _ _ Hbhi) as [Hchi _].
  pose proof HcR as (_ & HeR & _).
  assert (0 < V (Zpos mR) eR) by (apply V_pos_iff; lia).
  split; apply SFleb_V; try assumption; lia.
Qed.

(** The centre plus or minus a double of at most [R]. *)
Lemma add_within s M E :
  bounded prec emax M E = true ->
  V (Zpos M) E <= V (Zpos mR) eR ->
  SFleb lo (SFadd prec emax C (S754_finite s M E)) = true /\
  SFleb (SFadd prec emax C (S754_finite s M E)) hi = true.
Proof.
  intros Hb Hle.
  destruct (bounded_canon _ _ HbC) as [HcC _].
  destruct (bounded_canon _ _ HbR) as [HcR _].
  destruct (bounded_canon _ _ Hblo) as [Hclo _].
  destruct (bounded_canon _ _ Hb) as [Hc _].
  pose proof HcR as (_ & HeR & _). pose proof HcC as (_ & HeC & _).
  pose proof Hc as (_ & HeM & _). pose proof Hclo as (_ & Helo & _).
  assert (HpR : 0 < V (Zpos mR) eR) by (apply V_pos_iff; lia).
  assert (HpM : 0 < V (Zpos M) E) by (apply V_pos_iff; lia).
  assert (Hplo : 0 < V (Zpos mlo) elo) by (apply V_pos_iff; lia).
  destruct s.
  - (* towards the centre *)
    unfold C.
    destruct (SFadd_finite false mC eC true M E ltac:(lia) ltac:(lia))
      as (z & ez & -> & Hez & HV).
    cbn [cond_Zopp] in HV.
    split; [apply normalize_ge|apply normalize_le]; try assumption; lia.
  - destruct (Z.eq_dec (V (Zpos M) E) (V (Zpos mR) eR)) as [Heq|Hne].
    + (* on the rim *)
      destruct (canon_unique _ _ _ _ Hc HcR Heq) as [Hm ->].
      injection Hm as ->. unfold C. rewrite Hsum.
      split; [|apply SFleb_refl_finite].
      destruct (bounded_canon _ _ Hbhi) as [Hchi _].
      apply SFleb_V; try assumption. lia.
    + unfold C.
      destruct (SFadd_finite false mC eC false M E ltac:(lia) ltac:(lia))
        as (z & ez & -> & Hez & HV).
      cbn [cond_Zopp] in HV.
      split; [apply normalize_ge|apply normalize_le]; try assumption; lia.
Qed.

(** [C + r * c] for a radius [r] of at most [R] and [c] between -1 and 1. *)
Lemma offset_within mr er c :
  bounded prec emax mr er = true ->
  SFleb (S754_finite false mr er) (S754_finite false mR eR) = true ->
  valid_binary c = true ->
  SFleb (S754_finite true 4503599627370496 (-52)) c = true ->
  SFleb c c1 = true ->
  valid_binary (SFmul prec emax (S754_finite false mr er) c) = true ->
  SFleb lo (SFadd prec emax C (SFmul prec emax (S754_finite false mr er) c))
  = true /\
  SFleb (SFadd prec emax C (SFmul prec emax (S754_finite false mr er) c)) hi
  = true.
Proof.
  intros Hbr Hr Hvc Hc_lo Hc_hi Hvt.
  destruct (bounded_canon _ _ Hbr) as [Hcr _].
  destruct (bounded_canon _ _ HbR) as [HcR _].
  apply SFleb_V in Hr; [|exact Hcr|exact HcR].
  assert (Hc1 : canon 4503599627370496 (-52))
    by (unfold canon; vm_compute; intuition congruence).
  destruct c as [s|s| |s mc ec].
  - cbn [SFmul]. unfold C. cbn [SFadd]. apply centre_within.
  - destruct s; discriminate.
  - discriminate.
  - cbn [valid_binary] in Hvc.
    destruct (bounded_canon _ _ Hvc) as [Hcc _].
    assert (Hc : V (Zpos mc) ec <= V 4503599627370496 (-52)).
    { destruct s.
      - rewrite SFleb_neg in Hc_lo. apply SFleb_V in Hc_lo; assumption.
      - apply SFleb_V in Hc_hi; assumption. }
    pose proof (mul_magnitude mr er mc ec mR eR Hbr Hvc HbR Hr Hc Hone)
      as Hmag.
    cbn [SFmul xorb] in *.
    assert (Hopp : forall mx ex,
               binary_round_aux prec emax true mx ex loc_Exact
               = SFopp (binary_round_aux prec emax false mx ex loc_Exact)).
    { intros mx ex. rewrite FloatFacts.binary_round_aux_opp. reflexivity. }
    assert (Hshape := round_aux_shape (Zpos (mr * mc)) (er + ec) loc_Exact
                        ltac:(lia)
                        (product_exponent_bounded _ _ _ _ Hbr Hvc)).
    destruct s; [rewrite Hopp in *|];
      destruct Hshape as [H|[H|(M & E & H)]]; rewrite H in *;
      try discriminate;
      try (unfold C; cbn [SFopp SFadd]; apply centre_within).
    + cbn [SFopp negb valid_binary] in *.
      apply add_within; [exact Hvt|].
      destruct (bounded_canon _ _ Hvt) as [HcM _].
      apply SFleb_V in Hmag; assumption.
    + cbn [valid_binary] in *.
      apply add_within; [exact Hvt|].
      destruct (bounded_canon _ _ Hvt) as [HcM _].
      apply SFleb_V in Hmag; assumption.
Qed.

End Offset.

Section Radii.
Import NatalChart Double Div30 Rounding RoundingFacts.

(** The same on doubles: [C + r * c] for [0 < r <= R] and [c] between -1
    and 1 lies between [lo = C - R] and [hi = C + R]. *)
Lemma coordinate_within (C R lo hi : float) mC eC mR eR mlo elo mhi ehi :
  Prim2SF C = S754_finite false mC eC ->
  Prim2SF R = S754_finite false mR eR ->
  Prim2SF lo = S754_finite false mlo elo ->
  Prim2SF hi = S754_finite false mhi ehi ->
  V (Zpos mlo) elo = V (Zpos mC) eC - V (Zpos mR) eR ->
  V (Zpos mhi) ehi = V (Zpos mC) eC + V (Zpos mR) eR ->
  SFmul prec emax (S754_finite false mR eR) c1 = S754_finite false mR eR ->
  SFadd prec emax (S754_finite false mC eC) (S754_finite false mR eR)
  = S754_finite false mhi ehi ->
  forall r c : float,
    (0 <? r)%float = true -> (r <=? R)%float = true ->
    unit_range c ->
    (lo <=? C + r * c)%float = true /\ (C + r * c <=? hi)%float = true.
Proof.
  intros HC HR Hlo Hhi HVlo HVhi Hone Hsum r c Hr0 HrR [Hc1 Hc2].
  pose proof (Prim2SF_valid C) as HbC. rewrite HC in HbC.
  pose proof (Prim2SF_valid R) as HbR. rewrite HR in HbR.
  pose proof (Prim2SF_valid lo) as Hblo. rewrite Hlo in Hblo.
  pose proof (Prim2SF_valid hi) as Hbhi. rewrite Hhi in Hbhi.
  pose proof (Prim2SF_valid r) as Hbr.
  pose proof (Prim2SF_valid c) as Hbc.
  pose proof (Prim2SF_valid (r * c)) as Hbt.
  rewrite !leb_spec, add_spec, mul_spec, HC, Hlo, Hhi.
  rewrite mul_spec in Hbt.
  rewrite ltb_spec in Hr0. rewrite leb_spec, HR in HrR.
  rewrite leb_spec in Hc1, Hc2.
  replace (Prim2SF (-1)) with (S754_finite true 4503599627370496 (-52))
    in Hc1 by (vm_compute; reflexivity).
  replace (Prim2SF 1) with c1 in Hc2 by (vm_compute; reflexivity).
  replace (Prim2SF 0) with (S754_zero false) in Hr0
    by (vm_compute; reflexivity).
  destruct (Prim2SF r) as [s|s| |s mr er];
    try discriminate; try (destruct s; discriminate).
  destruct s; [discriminate|].
  exact (offset_within mC eC mR eR mlo elo mhi ehi HbC HbR Hblo Hbhi
           HVlo HVhi Hone Hsum mr er (Prim2SF c) Hbr HrR Hbc Hc1 Hc2 Hbt).
Qed.

(** Within 150 of the centre: the outer ring. *)
Lemma within_150 r c :
  (0 <? r)%float = true -> (r <=? 150)%float = true -> unit_range c ->
  (10 <=? center + r * c)%float = true /\
  (center + r * c <=? 310)%float = true.
Proof.
  apply (coordinate_within center 150 10 310
           5629499534213120 (-45) 5277655813324800 (-45)
           5629499534213120 (-49) 5453577673768960 (-44));
    vm_compute; reflexivity.
Qed.

(** Within 130 of the centre: the ring of the glyphs. *)
Lemma within_130 r c :
  (0 <? r)%float = true -> (r <=? 130)%float = true -> unit_range c ->
  (30 <=? center + r * c)%float = true /\
  (center + r * c <=? 290)%float = true.
Proof.
  apply (coordinate_within center 130 30 290
           5629499534213120 (-45) 4573968371548160 (-45)
           8444249301319680 (-48) 5101733952880640 (-44));
    vm_compute; reflexivity.
Qed.

(** Within 90 of the centre: the planets. *)
Lemma within_90 r c :
  (0 <? r)%float = true -> (r <=? 90)%float = true -> unit_range c ->
  (70 <=? center + r * c)%float = true /\
  (center + r * c <=? 250)%float = true.
Proof.
  apply (coordinate_within center 90 70 250
           5629499534213120 (-45) 6333186975989760 (-46)
           4925812092436480 (-46) 8796093022208000 (-45));
    vm_compute; reflexivity.
Qed.

End Radii.

Section Canvas.
Import NatalChart.

Variables cos sin : float -> float.

(** Both coordinates of [getCoordinates degree r], from a bound on one
    offset. *)
Lemma getCoordinates_in_box (lo hi R degree r : float) :
  (forall r c,
      (0 <? r)%float = true -> (r <=? R)%float = true -> unit_range c ->
      (lo <=? center + r * c)%float = true /\
      (center + r * c <=? hi)%float = true) ->
  (0 <? r)%float = true -> (r <=? R)%float = true ->
  unit_range (cos (radians_of degree)) ->
  unit_range (sin (radians_of degree)) ->
  in_box lo hi (getCoordinates cos sin degree r).
Proof.
  intros Hwithin Hr0 HrR Hcos Hsin.
  unfold in_box, getCoordinates. cbn [px py].
  split; apply Hwithin; assumption.
Qed.

(** The radius of a marker is 90 or 75. *)
Lemma planetRadius_range index :
  (0 <? planetRadius index)%float = true /\
  (planetRadius index <=? 90)%float = true.
Proof.
  unfold planetRadius. rewrite rem2_even.
  destruct (Nat.even index); split; vm_compute; reflexivity.
Qed.

(** X9.  With [Math.cos] and [Math.sin] between -1 and 1 at the angles of
    the positions, the marker of every planet is centred between 70 and
    250 in both coordinates, whatever the degrees and however many
    positions there are. *)
Theorem planet_markers_stay_in_their_square :
  forall (positions : list Position) (pt : Point),
    (forall p, In p positions ->
       unit_range (cos (radians_of (degree p))) /\
       unit_range (sin (radians_of (degree p)))) ->
    In pt (planetCoords cos sin positions) ->
    in_box 70 250 pt.
Proof.
  intros positions pt Hunit Hpt.
  destruct (In_nth_error _ _ Hpt) as [index Hnth].
  unfold planetCoords, mapi in Hnth. rewrite mapi_from_nth in Hnth.
  destruct (nth_error positions index) as [p|] eqn:Hp; [|discriminate].
  injection Hnth as <-. cbn [Nat.add].
  destruct (Hunit p (nth_error_In _ _ Hp)) as [Hcos Hsin].
  destruct (planetRadius_range index) as [Hr0 Hr90].
  apply (getCoordinates_in_box 70 250 90); try assumption.
  exact within_90.
Qed.

(** X10.  With [Math.cos] and [Math.sin] between -1 and 1 at the angles of
    the twelve signs, every divider ends between 10 and 310 in both
    coordinates, on the canvas of 320 by 320, and every glyph is anchored
    between 30 and 290. *)
Theorem zodiac_ring_stays_on_the_canvas :
  forall (pr : Point * Point),
    (forall s, In s ZODIAC_SIGNS ->
       (unit_range (cos (radians_of (start s))) /\
        unit_range (sin (radians_of (start s)))) /\
       (unit_range (cos (radians_of (start s + 15))) /\
        unit_range (sin (radians_of (start s + 15))))) ->
    In pr (signCoords cos sin ZODIAC_SIGNS) ->
    in_box 10 310 (fst pr) /\ in_box 30 290 (snd pr).
Proof.
  intros pr Hunit Hpr.
  unfold signCoords in Hpr. apply in_map_iff in Hpr.
  destruct Hpr as (s & <- & Hs).
  destruct (Hunit s Hs) as [[Hc1 Hs1] [Hc2 Hs2]].
  cbn [fst snd]. split.
  - apply (getCoordinates_in_box 10 310 150); try assumption;
      [exact within_150|vm_compute; reflexivity|vm_compute; reflexivity].
  - apply (getCoordinates_in_box 30 290 130); try assumption;
      [exact within_130|vm_compute; reflexivity|vm_compute; reflexivity].
Qed.

End Canvas.

(** ** The number in the tooltip *)

Section Tooltip.
Import NatalChart Double Div30 Rounding RoundingFacts.

Ltac decode_row :=
  repeat match goal with
  | |- context [Prim2SF ?c] =>
      let v := eval vm_compute in (Prim2SF c) in
      replace (Prim2SF c) with v by (vm_compute; reflexivity)
  end.

(** The thirty degrees of a sector, in values. *)
Lemma sector_values (L : float) (k : nat) (s : Sign) m e :
  in_sector L k s -> Prim2SF L = S754_finite false m e ->
  30 * Z.of_nat k * 2 ^ 2200 <= V (Zpos m) e
  < 30 * (Z.of_nat k + 1) * 2 ^ 2200.
Proof.
  intros (Hk & Hnth & _ & _ & Hlo & Hhi) Hx.
  pose proof (Prim2SF_valid L) as Hb. rewrite Hx in Hb. cbn in Hb.
  pose proof (canon_of_bounded _ _ Hb) as Hc.
  assert (Hpos : 0 < V (Zpos m) e).
  { apply V_pos_iff; [|lia]. destruct Hc as (_ & ? & _). lia. }
  rewrite leb_spec, Hx in Hlo. rewrite ltb_spec, Hx in Hhi.
  pose proof two_2200_pos as HP.
  revert Hlo Hhi.
  do 12 (try (destruct k as [|k]; [injection Hnth as <-|])); try lia;
    cbn [start]; decode_row; intros Hlo Hhi;
    (apply SFltb_V in Hhi;
     [|exact Hc|unfold canon; vm_compute; intuition congruence]);
    try (apply SFleb_V in Hlo;
         [|unfold canon; vm_compute; intuition congruence|exact Hc]);
    match type of Hhi with
    | _ < V ?a ?b =>
        let v := eval vm_compute in (V a b / 2 ^ 2200) in
        rewrite (V_whole a b v ltac:(lia) ltac:(vm_compute; reflexivity))
          in Hhi
    end;
    try match type of Hlo with
    | V ?a ?b <= _ =>
        let v := eval vm_compute in (V a b / 2 ^ 2200) in
        rewrite (V_whole a b v ltac:(lia) ltac:(vm_compute; reflexivity))
          in Hlo
    end;
    cbn [Z.of_nat Pos.of_succ_nat Pos.succ];
    remember (2 ^ 2200) as P eqn:HeqP; clear HeqP;
    remember (V (Zpos m) e) as v eqn:Heqv; clear Heqv; clear - Hlo Hhi Hpos HP; lia.
Qed.

(** The whole part of a double in a sector. *)
Lemma whole_part_finite (L : float) (k : nat) (s : Sign) m e :
  in_sector L k s -> Prim2SF L = S754_finite false m e ->
  exists n : Z,
    30 * Z.of_nat k <= n <= 30 * Z.of_nat k + 29 /\
    Js.floor L = Js.of_Z n /\
    (Js.of_Z n <=? L)%float = true /\
    (L <? Js.of_Z (n + 1))%float = true.
Proof.
  intros Hsec Hx.
  pose proof (sector_values L k s m e Hsec Hx) as [Hlo Hhi].
  destruct Hsec as (Hk & _).
  pose proof (Prim2SF_valid L) as Hb. rewrite Hx in Hb. cbn in Hb.
  pose proof (canon_of_bounded _ _ Hb) as Hc.
  pose proof Hc as ((Hm0 & Hm53) & He & Hn).
  pose proof two_2200_pos as HP.
  assert (Hneg : e < 0).
  { destruct (Z_lt_le_dec e 0) as [|Hc0]; [assumption|exfalso].
    pose proof (two_2200_le e Hc0) as HPT.
    assert (H52 : 2 ^ 52 <= Zpos m) by (apply Hn; lia).
    unfold V in Hhi. pow2.
    remember (2 ^ 2200) as P eqn:HeqP. clear HeqP.
    remember (2 ^ (e + 2200)) as T eqn:HeqT. clear HeqT.
    clear - Hhi HPT H52 HP Hk. nia. }
  pose proof (two_2200_split e ltac:(lia)) as HUT.
  assert (HU : 0 < 2 ^ (- e)) by (apply Z.pow_pos_nonneg; lia).
  assert (HT : 0 < 2 ^ (e + 2200)) by (apply Z.pow_pos_nonneg; lia).
  assert (Hof : forall n, 0 < n < 2 ^ 53 ->
            exists mz ez,
              Prim2SF (Js.of_Z n) = S754_finite false mz ez /\
              canon (Zpos mz) ez /\
              V (Zpos mz) ez = n * (2 ^ (- e) * 2 ^ (e + 2200))).
  { intros n Hn0. destruct (of_Z_decode n Hn0) as (mz & ez & H1 & H2 & H3).
    exists mz, ez. split; [exact H1|]. split; [exact (canon_of_bounded _ _ H2)|].
    rewrite H3, HUT. reflexivity. }
  unfold V in Hlo, Hhi. rewrite HUT in Hlo, Hhi.
  assert (HV : V (Zpos m) e = Zpos m * 2 ^ (e + 2200)) by reflexivity.
  remember (2 ^ 2200) as P eqn:HeqP. clear HeqP HUT HP.
  remember (2 ^ (- e)) as U eqn:HeqU.
  remember (2 ^ (e + 2200)) as T eqn:HeqT. clear HeqT.
  assert (Hlo' : 30 * Z.of_nat k * U <= Zpos m) by (clear - Hlo HT HU; nia).
  assert (Hhi' : Zpos m < 30 * (Z.of_nat k + 1) * U)
    by (clear - Hhi HT HU; nia).
  set (n := Zpos m / U).
  assert (Hn1 : 30 * Z.of_nat k <= n)
    by (apply Z.div_le_lower_bound; [exact HU|clear - Hlo'; lia]).
  assert (Hn2 : n < 30 * (Z.of_nat k + 1))
    by (apply Z.div_lt_upper_bound; [exact HU|clear - Hhi'; lia]).
  assert (Hn3 : n * U <= Zpos m)
    by (unfold n; rewrite Z.mul_comm; apply Z.mul_div_le; exact HU).
  assert (Hn4 : Zpos m < (n + 1) * U).
  { pose proof (Z.mod_pos_bound (Zpos m) U HU) as Hmod.
    pose proof (Z.div_mod (Zpos m) U ltac:(clear - HU; lia)) as Hdm.
    fold n in Hdm. clear - Hmod Hdm. lia. }
  assert (Hn53 : n + 1 < 2 ^ 53) by (pow2; clear - Hn2 Hk; lia).
  exists n. split; [clear - Hn1 Hn2; lia|]. split; [|split].
  - unfold Js.floor, Js.of_Z. rewrite Hx, SFfloor_pos by exact Hneg.
    unfold n. rewrite HeqU. reflexivity.
  - rewrite leb_spec, Hx.
    destruct (Z.eq_dec n 0) as [Hn0|Hn0].
    + rewrite Hn0.
      replace (Prim2SF (Js.of_Z 0)) with (S754_zero false)
        by (vm_compute; reflexivity).
      reflexivity.
    + destruct (Hof n ltac:(clear - Hn1 Hn0 Hn53; lia))
        as (mz & ez & -> & Hcz & HVz).
      apply SFleb_V; [exact Hcz|exact Hc|].
      rewrite HVz, HV. clear - Hn3 HT. nia.
  - rewrite ltb_spec, Hx.
    destruct (Hof (n + 1) ltac:(clear - Hn1 Hn53; lia))
      as (mz & ez & -> & Hcz & HVz).
    apply SFltb_V; [exact Hc|exact Hcz|].
    rewrite HVz, HV. clear - Hn4 HT. nia.
Qed.

(** A zero lies in the first sector and is its own whole part. *)
Lemma whole_part_zero (L : float) (k : nat) (s : Sign) sgn :
  in_sector L k s -> Prim2SF L = S754_zero sgn ->
  k = 0%nat /\ Js.floor L = L.
Proof.
  intros (Hk & Hnth & _ & _ & Hlo & _) Hx. split.
  - rewrite leb_spec, Hx in Hlo.
    destruct k as [|k]; [reflexivity|]. exfalso. revert Hlo.
    do 11 (try (destruct k as [|k]; [injection Hnth as <-|])); try lia;
      cbn [start]; decode_row; destruct sgn; discriminate.
  - unfold Js.floor. rewrite Hx. cbn [Js.SFfloor]. rewrite <- Hx.
    apply SF2Prim_Prim2SF.
Qed.

(** X11.  The tooltip of a planet whose degree lies in a sector shows a
    whole number of that sector: [Math.floor] of the degree is the double
    of an integer [n] between [30 k] and [30 k + 29] for the row [k] of
    the sign shown beside it, with [n <= degree < n + 1].  (For a degree
    of [-0] the number is [-0].) *)
Theorem tooltip_degree_lies_in_the_sector :
  forall (p : Position) (k : nat) (s : Sign),
    in_sector (degree p) k s ->
    exists n : Z,
      30 * Z.of_nat k <= n <= 30 * Z.of_nat k + 29 /\
      (tooltip_degree p = Js.of_Z n \/
       (n = 0 /\ tooltip_degree p = (-0)%float)) /\
      (Js.of_Z n <=? degree p)%float = true /\
      (degree p <? Js.of_Z (n + 1))%float = true.
Proof.
  intros p k s Hsec. unfold tooltip_degree.
  set (L := degree p) in *.
  pose proof Hsec as (_ & Hnth & _ & _ & Hlo & Hhi).
  destruct (sector_within_circle L k s Hnth Hlo Hhi) as [H0 H360].
  rewrite leb_spec in H0. rewrite ltb_spec in H360.
  destruct (Prim2SF L) as [sgn|sgn| |sgn m e] eqn:Hx.
  - destruct (whole_part_zero L k s sgn Hsec Hx) as [-> Hfl].
    exists 0. split; [cbn; lia|]. rewrite Hfl.
    assert (HL : L = 0%float \/ L = (-0)%float).
    { destruct sgn; [right|left]; apply Prim2SF_inj; rewrite Hx;
        reflexivity. }
    split; [|split].
    + destruct HL as [->| ->]; [left|right; split]; reflexivity.
    + destruct HL as [->| ->]; vm_compute; reflexivity.
    + destruct HL as [->| ->]; vm_compute; reflexivity.
  - revert H360. decode_row. destruct sgn; discriminate.
  - discriminate.
  - destruct sgn; [discriminate|].
    destruct (whole_part_finite L k s m e Hsec Hx) as (n & Hn & Hfl & H1 & H2).
    exists n. split; [exact Hn|]. split; [left; exact Hfl|].
    split; assumption.
Qed.

End Tooltip.

(** ** The further properties on the stand-ins *)

Section FurtherRuns.
Import NatalChart App.

Lemma chart_shown_whatever_the_reply_witness :
  (forall b, exists v,
      Sample.still_sky b
        (toDate
       (dateObj Sample.UTC (form_dob sample_values) (form_tob sample_values)))
        true = Ok v) /\
  exists ps v,
    planetaryPositions Sample.atan2 Sample.UTC Sample.still_sky
      (form_dob sample_values) (form_tob sample_values) = Ok ps /\
    view Sample.atan2 Sample.UTC Sample.still_sky
      (fst (handleFinish sample_values (Throw "Network Error"%string) initial))
    = Ok v /\
    chart v = Some ps /\ results_area v = true /\
    button_label v = "Reveal My Destiny"%string /\
    (reading v = None -> error_banner v = Some API_ERROR).
Proof.
  assert (H : forall b, exists v,
             Sample.still_sky b
               (toDate
       (dateObj Sample.UTC (form_dob sample_values) (form_tob sample_values)))
               true = Ok v)
    by (intros b; eexists; reflexivity).
  split; [exact H|].
  exact (chart_shown_whatever_the_reply Sample.atan2 Sample.UTC
           Sample.still_sky sample_values (Throw "Network Error"%string) initial H).
Defined.

Lemma chart_failure_escapes_the_handler_witness :
  Sample.no_mars Mars
    (toDate
       (dateObj Sample.UTC (form_dob sample_values) (form_tob sample_values)))
    true = Throw "Invalid body"%string /\
  st_loading (before_await sample_values initial) = true /\
  st_error (before_await sample_values initial) = None /\
  exists msg',
    view Sample.atan2 Sample.UTC Sample.no_mars
      (before_await sample_values initial) = Throw msg'.
Proof.
  split; [reflexivity|].
  exact (chart_failure_escapes_the_handler Sample.atan2 Sample.UTC
           Sample.no_mars sample_values initial _ "Invalid body"%string
           Mars_in_table eq_refl).
Defined.

Lemma first_failing_body_decides_witness :
  planetaryPositions Sample.atan2 Sample.UTC Sample.no_mars
    Sample.dob Sample.tob = Throw "Invalid body"%string.
Proof.
  apply (first_failing_body_decides Sample.atan2 Sample.UTC Sample.no_mars
           Sample.dob Sample.tob (firstn 4 PLANETS) (skipn 5 PLANETS)
           {| name := "Mars"; key := Mars; symbol := "♂";
              color := "#EF5350" |}
           "Invalid body"%string).
  - reflexivity.
  - intros q Hq. simpl in Hq.
    destruct Hq as [<-|[<-|[<-|[<-|[]]]]]; eexists; reflexivity.
  - reflexivity.
Defined.

Lemma longitude_in_sector_gets_its_sign_witness :
  let L := 0x1.67ffbe76c8b44p+8%float in
  exists s,
    nth_error ZODIAC_SIGNS 11 = Some s /\
    (start s <=? L)%float = true /\ (L <? start s + 30)%float = true /\
    Js.get ZODIAC_SIGNS (Js.floor (L / 30)) = Some s /\
    signName_of L = sign_name s.
Proof.
  cbv zeta. eexists. split; [reflexivity|].
  split; [vm_compute; reflexivity|]. split; [vm_compute; reflexivity|].
  apply (longitude_in_sector_gets_its_sign _ 11%nat);
    [reflexivity|vm_compute; reflexivity|vm_compute; reflexivity].
Defined.

Lemma hair_below_axis_in_range t :
  angles_in_range Sample.atan2 Sample.hair_below_axis t.
Proof.
  intros p v _ H. injection H as <-. split; vm_compute; reflexivity.
Defined.

Lemma still_sky_in_range t :
  angles_in_range Sample.atan2 Sample.still_sky t.
Proof.
  intros p v _ H. injection H as <-. split; vm_compute; reflexivity.
Defined.

Lemma degrees_lie_on_the_circle_witness :
  exists ps q,
    planetaryPositions Sample.atan2 Sample.UTC Sample.hair_below_axis
      Sample.dob Sample.tob = Ok ps /\
    In q ps /\
    (0 <=? degree q)%float = true /\
    ((degree q <? 360)%float = true \/ degree q = 360%float).
Proof.
  eexists. eexists. split; [vm_compute; reflexivity|].
  split; [left; reflexivity|].
  eapply (degrees_lie_on_the_circle Sample.atan2 Sample.UTC
           Sample.hair_below_axis Sample.dob Sample.tob _ _
           (hair_below_axis_in_range _)).
  - vm_compute. reflexivity.
  - left. reflexivity.
Defined.

Lemma every_position_has_its_sector_or_none_witness :
  exists ps q,
    planetaryPositions Sample.atan2 Sample.UTC Sample.still_sky
      Sample.dob Sample.tob = Ok ps /\
    In q ps /\
    ((exists (k : nat) (s : Sign),
         in_sector (degree q) k s /\ sign q = sign_name s)
     \/ (degree q = 360%float /\ sign q = EmptyString)).
Proof.
  eexists. eexists. split; [vm_compute; reflexivity|].
  split; [left; reflexivity|].
  eapply (every_position_has_its_sector_or_none Sample.atan2 Sample.UTC
           Sample.still_sky Sample.dob Sample.tob _ _
           (still_sky_in_range _)).
  - vm_compute. reflexivity.
  - left. reflexivity.
Defined.

End FurtherRuns.

(** ** The drawing on the stand-ins *)

Section DrawingRuns.
Import NatalChart.

Lemma planet_markers_stay_in_their_square_witness :
  exists ps pt,
    planetaryPositions Sample.atan2 Sample.UTC Sample.still_sky
      Sample.dob Sample.tob = Ok ps /\
    (forall p, In p ps ->
       unit_range (Sample.cos (radians_of (degree p))) /\
       unit_range (Sample.sin (radians_of (degree p)))) /\
    In pt (planetCoords Sample.cos Sample.sin ps) /\
    in_box 70 250 pt.
Proof.
  eexists. eexists. split; [vm_compute; reflexivity|].
  match goal with
  | |- (forall p, In p ?l -> _) /\ _ =>
      assert (Hunit : forall p, In p l ->
                unit_range (Sample.cos (radians_of (degree p))) /\
                unit_range (Sample.sin (radians_of (degree p))))
  end.
  { intros p Hp. simpl in Hp.
    repeat (destruct Hp as [<-|Hp];
            [split; split; vm_compute; reflexivity|]).
    destruct Hp. }
  split; [exact Hunit|].
  split; [left; reflexivity|].
  eapply (planet_markers_stay_in_their_square Sample.cos Sample.sin _ _ Hunit).
  left. reflexivity.
Defined.

Lemma zodiac_ring_stays_on_the_canvas_witness :
  (forall s, In s ZODIAC_SIGNS ->
     (unit_range (Sample.cos (radians_of (start s))) /\
      unit_range (clamped_sin (radians_of (start s)))) /\
     (unit_range (Sample.cos (radians_of (start s + 15))) /\
      unit_range (clamped_sin (radians_of (start s + 15))))) /\
  exists pr,
    In pr (signCoords Sample.cos clamped_sin ZODIAC_SIGNS) /\
    in_box 10 310 (fst pr) /\ in_box 30 290 (snd pr).
Proof.
  assert (Hunit : forall s, In s ZODIAC_SIGNS ->
     (unit_range (Sample.cos (radians_of (start s))) /\
      unit_range (clamped_sin (radians_of (start s)))) /\
     (unit_range (Sample.cos (radians_of (start s + 15))) /\
      unit_range (clamped_sin (radians_of (start s + 15))))).
  { intros s Hs. simpl in Hs.
    repeat (destruct Hs as [<-|Hs];
            [repeat split; vm_compute; reflexivity|]).
    destruct Hs. }
  split; [exact Hunit|].
  eexists. split; [left; reflexivity|].
  apply (zodiac_ring_stays_on_the_canvas Sample.cos clamped_sin _ Hunit).
  left. reflexivity.
Defined.

End DrawingRuns.

(** ** The tooltip on a sample position *)

Section TooltipRuns.
Import NatalChart.

Lemma tooltip_degree_lies_in_the_sector_witness :
  let p := {| planet := {| name := "Sun"; key := Sun; symbol := "☉";
                           color := "#FFD700" |};
              degree := 45.5; sign := "Taurus" |} in
  exists s,
    in_sector (degree p) 1 s /\
    exists n : Z,
      30 * Z.of_nat 1 <= n <= 30 * Z.of_nat 1 + 29 /\
      (tooltip_degree p = Js.of_Z n \/
       (n = 0 /\ tooltip_degree p = (-0)%float)) /\
      (Js.of_Z n <=? degree p)%float = true /\
      (degree p <? Js.of_Z (n + 1))%float = true.
Proof.
  cbv zeta. eexists.
  assert (Hsec : in_sector 45.5 1
                   {| sign_name := "Taurus"; sign_symbol := "♉";
                      sign_color := "#4CAF50"; start := 30;
                      desc := "The Bull" |}).
  { unfold in_sector. split; [lia|]. repeat split; vm_compute; reflexivity. }
  split; [exact Hsec|].
  exact (tooltip_degree_lies_in_the_sector
           {| planet := {| name := "Sun"; key := Sun; symbol := "☉";
                           color := "#FFD700" |};
              degree := 45.5; sign := "Taurus" |}
           1%nat _ Hsec).
Defined.

End TooltipRuns.
